(** * mkdocs-get-deps: the resolution algorithm of [get_deps]

    A shallow embedding of [src/mkdocs_get_deps/__init__.py] and the
    properties of its nested-key accessor, catalog matcher and local-registry
    fallback.

    Conventions of the embedding.
    - A parsed YAML document is a [value]: scalars are [atom]s ([None],
      [bool], [int], [str]), sequences are lists, mappings are finite maps
      keyed by strings.  Floats, timestamps and non-string mapping keys are
      outside the model.
    - Strings are sequences of characters compared character by character,
      which is the order Python's [sorted] uses on [str].
    - Python exceptions are values of [exn]; a computation that may raise
      returns a [result], and one that also writes to the logger is an [M].
    - The catalog follows the schema of its documentation: each capability
      declaration and each extra-dependency value is a string or a sequence
      of strings ([decl]), [pypi_id] and [github_id] are strings.
    - Records at DEBUG level are not part of the log of the model (their text
      is made of Python [repr]s); what their f-strings evaluate is kept. *)

From Stdlib Require Import ZArith Ascii DecimalString.
From stdpp Require Import gmap strings list sorting.
From Equations Require Import Equations.

Set Default Proof Using "Type".

(** ** Python objects *)

Inductive atom :=
| ANone
| ABool (b : bool)
| AInt (n : Z)
| AStr (s : string).

#[warnings="-register-all"]
Inductive value :=
| VAtom (a : atom)
| VList (l : list value)
| VDict (d : gmap string value).

Abbreviation VNone := (VAtom ANone).
Abbreviation VStr s := (VAtom (AStr s)).
Abbreviation VInt n := (VAtom (AInt n)).
Abbreviation VBool b := (VAtom (ABool b)).

Global Instance atom_eq_dec : EqDecision atom.
Proof. solve_decision. Defined.

Definition atom_to_sum (a : atom) : unit + bool + (Z + string) :=
  match a with
  | ANone => inl (inl tt)
  | ABool b => inl (inr b)
  | AInt n => inr (inl n)
  | AStr s => inr (inr s)
  end.

Definition atom_of_sum (x : unit + bool + (Z + string)) : atom :=
  match x with
  | inl (inl _) => ANone
  | inl (inr b) => ABool b
  | inr (inl n) => AInt n
  | inr (inr s) => AStr s
  end.

Global Instance atom_countable : Countable atom.
Proof.
  refine (inj_countable' atom_to_sum atom_of_sum _).
  intros []; reflexivity.
Defined.

Global Instance AStr_inj : Inj (=) (=) AStr.
Proof. intros s1 s2 [= ->]. reflexivity. Qed.

(** ** Exceptions and the logger *)

Inductive exn := TypeError | KeyError | ValueError.

Inductive result (A : Type) :=
| Ok (a : A)
| Raise (e : exn).
Arguments Ok {A} a.
Arguments Raise {A} e.

Global Instance result_ret : MRet result := @Ok.
Global Instance result_bind : MBind result := λ A B f r,
  match r with
  | Ok a => f a
  | Raise e => Raise e
  end.

Inductive level := INFO | WARNING | ERROR.

Record log_record := LogRecord { levelname : level; message : string }.

(** A computation that appends records to the logger and then returns or
    raises.  The records written before an exception stay written. *)
Record M (A : Type) := MkM { logged : list log_record; outcome : result A }.
Arguments MkM {A} logged outcome.
Arguments logged {A} m.
Arguments outcome {A} m.

Global Instance M_ret : MRet M := λ A a, MkM [] (Ok a).
Global Instance M_bind : MBind M := λ A B f m,
  match outcome m with
  | Ok a => MkM (logged m ++ logged (f a)) (outcome (f a))
  | Raise e => MkM (logged m) (Raise e)
  end.

Definition lift {A} (r : result A) : M A := MkM [] r.
Definition log (lvl : level) (msg : string) : M unit :=
  MkM [LogRecord lvl msg] (Ok tt).

Fixpoint foldM {A S : Type} (f : S → A → M S) (s : S) (l : list A) : M S :=
  match l with
  | [] => mret s
  | x :: l' => s' ← f s x; foldM f s' l'
  end.

(** ** String operations of Python used by the code *)

(** [keys.partition(c)]: the part before the first [c] and the part after it;
    the whole string and the empty string when [c] does not occur. *)
Fixpoint partition (c : ascii) (s : string) : string * string :=
  match s with
  | EmptyString => (EmptyString, EmptyString)
  | String a s' =>
      if Ascii.eqb a c then (EmptyString, s')
      else let '(k, r) := partition c s' in (String a k, r)
  end.

(** [c in s] for a one-character string [c]. *)
Fixpoint contains (c : ascii) (s : string) : bool :=
  match s with
  | EmptyString => false
  | String a s' => Ascii.eqb a c || contains c s'
  end.

(** [s.startswith(p)] *)
Definition startswith (s p : string) : bool := String.prefix p s.

(** [s[n:]] *)
Fixpoint str_drop (n : nat) (s : string) : string :=
  match n, s with
  | O, _ => s
  | S n', String _ s' => str_drop n' s'
  | S _, EmptyString => EmptyString
  end.

(** [s.rpartition(c)[-1]]: the part after the last [c], the whole string when
    [c] does not occur. *)
Fixpoint rpartition_last (c : ascii) (s : string) : string :=
  match s with
  | EmptyString => EmptyString
  | String a s' =>
      if contains c s' then rpartition_last c s'
      else if Ascii.eqb a c then s' else s
  end.

Definition ascii_upper (a : ascii) : ascii :=
  let n := nat_of_ascii a in
  if (97 <=? n)%nat && (n <=? 122)%nat then ascii_of_nat (n - 32) else a.

Definition ascii_lower (a : ascii) : ascii :=
  let n := nat_of_ascii a in
  if (65 <=? n)%nat && (n <=? 90)%nat then ascii_of_nat (n + 32) else a.

Fixpoint str_map (f : ascii → ascii) (s : string) : string :=
  match s with
  | EmptyString => EmptyString
  | String a s' => String (f a) (str_map f s')
  end.

(** [s.capitalize()] on ASCII letters. *)
Definition capitalize (s : string) : string :=
  match s with
  | EmptyString => EmptyString
  | String a s' => String (ascii_upper a) (str_map ascii_lower s')
  end.

(** [str(n)] for an [int]. *)
Definition str_of_int (n : Z) : string := NilZero.string_of_int (Z.to_int n).

(** ** Operations of Python on objects *)

(** [v[key]] for a [str] key: only a mapping can be indexed by a string. *)
Definition getitem (v : value) (key : string) : result value :=
  match v with
  | VDict d =>
      match d !! key with
      | Some x => Ok x
      | None => Raise KeyError
      end
  | _ => Raise TypeError
  end.

(** [bool(v)] *)
Definition truthy (v : value) : bool :=
  match v with
  | VAtom ANone => false
  | VAtom (ABool b) => b
  | VAtom (AInt n) => negb (n =? 0)%Z
  | VAtom (AStr s) => negb (String.eqb s "")
  | VList l => negb (bool_decide (l = []))
  | VDict d => negb (bool_decide (d = ∅))
  end.

(** [hash(v)]: sequences and mappings cannot be members of a set. *)
Definition py_hash (v : value) : result atom :=
  match v with
  | VAtom a => Ok a
  | _ => Raise TypeError
  end.

(** [len(v)] *)
Definition py_len (v : value) : result nat :=
  match v with
  | VAtom (AStr s) => Ok (String.length s)
  | VAtom _ => Raise TypeError
  | VList l => Ok (length l)
  | VDict d => Ok (size d)
  end.

(** [set(l)] *)
Fixpoint py_set (l : list value) : result (gset atom) :=
  match l with
  | [] => Ok ∅
  | v :: l' => a ← py_hash v; s ← py_set l'; Ok ({[a]} ∪ s)
  end.

Definition str_of_atom (a : atom) : string :=
  match a with
  | ANone => "None"
  | ABool true => "True"
  | ABool false => "False"
  | AInt n => str_of_int n
  | AStr s => s
  end.

Definition atom_str (a : atom) : option string :=
  match a with AStr s => Some s | _ => None end.

Definition atom_num (a : atom) : option Z :=
  match a with
  | ABool b => Some (Z.b2z b)
  | AInt n => Some n
  | _ => None
  end.

Definition num_le (a b : atom) : Prop :=
  (default 0 (atom_num a) ≤ default 0 (atom_num b))%Z.

Global Instance num_le_dec : RelDecision num_le.
Proof. intros a b. unfold num_le. apply _. Defined.

(** [sorted(l)] on hashable scalars.  Strings are ordered among themselves,
    integers and booleans among themselves; a comparison across these, or
    with [None], raises [TypeError].  A list of at most one element is never
    compared. *)
Definition py_sorted (l : list atom) : result (list atom) :=
  match l with
  | [] | [_] => Ok l
  | _ =>
      match mapM atom_str l with
      | Some ss => Ok (AStr <$> merge_sort String.le ss)
      | None =>
          match mapM atom_num l with
          | Some _ => Ok (merge_sort num_le l)
          | None => Raise TypeError
          end
      end
  end.

(** ** The nested-key accessor *)

(** The sentinel [_NotFound] is told apart from every value of a document,
    [None] included: a result of [_dig] is [Some v] for a value found and
    [_NotFound] otherwise. *)
Definition _NotFound : option value := None.

(** One turn of the loop [for item in reversed(orig_cfg)]:
    [cfg.update(item)] for a mapping of one key, [cfg[item] = {}] for a
    string, nothing for any other item. *)
Definition flatten_step (cfg : gmap string value) (item : value)
  : gmap string value :=
  match item with
  | VDict d => if decide (size d = 1) then d ∪ cfg else cfg
  | VAtom (AStr s) => <[s := VDict ∅]> cfg
  | _ => cfg
  end.

Definition flatten (orig_cfg : list value) : gmap string value :=
  foldl flatten_step ∅ (reverse orig_cfg).

(** Lines 43-50: a sequence is replaced by its flat mapping. *)
Definition flat (cfg : value) : value :=
  match cfg with
  | VList orig_cfg => VDict (flatten orig_cfg)
  | _ => cfg
  end.

Definition inspect {A} (a : A) : {b | a = b} := exist _ a eq_refl.

(** [_dig(cfg, keys)].  [getitem] raises nothing but [KeyError] and
    [TypeError], the two exceptions the [except] clause catches. *)
Equations? _dig (cfg : value) (keys : string) : option value
  by wf (String.length keys) lt :=
  _dig cfg keys with inspect (partition "." keys) := {
    | exist _ (key, rest) Hpart with getitem cfg key := {
      | Raise _ => _NotFound
      | Ok v with inspect rest := {
        | exist _ EmptyString _ => Some (flat v)
        | exist _ (String a rest') Hrest => _dig (flat v) (String a rest') } } }.
Proof.
  clear -Hpart. revert key Hpart.
  induction keys as [|c s IH]; simpl; intros key; [discriminate|].
  destruct (Ascii.eqb c "."); [intros [= _ ->]; simpl; lia|].
  destruct (partition "." s) as [k r] eqn:E. intros [= _ ->].
  specialize (IH _ eq_refl). lia.
Qed.

(** [_strings(obj)] on the result of [_dig]: [(obj,)] for a string, otherwise
    [tuple(obj)], which iterates a sequence, the keys of a mapping or the
    empty tuple [_NotFound], and raises [TypeError] on any other scalar. *)
Definition _strings (obj : option value) : result (list value) :=
  match obj with
  | None => Ok []
  | Some (VAtom (AStr s)) => Ok [VStr s]
  | Some (VAtom _) => Raise TypeError
  | Some (VList l) => Ok l
  | Some (VDict d) => Ok ((λ kv, VStr kv.1) <$> map_to_list d)
  end.

(** ** The catalog *)

(** A string or a sequence of strings. *)
Inductive decl :=
| One (s : string)
| Many (l : list string).

(** [_strings(obj)] on a declaration of the catalog; an absent declaration
    is read with the default [()]. *)
Definition _strings_decl (obj : option decl) : list string :=
  match obj with
  | None => []
  | Some (One s) => [s]
  | Some (Many l) => l
  end.

Record Project := {
  mkdocs_theme : option decl;
  mkdocs_plugin : option decl;
  markdown_extension : option decl;
  pypi_id : option string;
  github_id : option string;
  (** absent and empty [extra_dependencies] are both the empty map *)
  extra_dependencies : gmap string decl;
}.

(** [project.get(key, ())] for the keys that hold declarations. *)
Definition project_get (project : Project) (key : string) : option decl :=
  if String.eqb key "mkdocs_theme" then mkdocs_theme project
  else if String.eqb key "mkdocs_plugin" then mkdocs_plugin project
  else if String.eqb key "markdown_extension" then markdown_extension project
  else None.

Record _PluginKind := PluginKind {
  projects_key : string;
  entry_points_key : string;
}.

(** [_PluginKind.__str__] *)
Definition kind_str (kind : _PluginKind) : string :=
  rpartition_last "_" (projects_key kind).

Definition theme_kind := PluginKind "mkdocs_theme" "mkdocs.themes".
Definition plugin_kind := PluginKind "mkdocs_plugin" "mkdocs.plugins".
Definition extension_kind := PluginKind "markdown_extension" "markdown.extensions".

(** ** Locally installed entry points *)

Record Distribution := { name : string }.
Record EntryPoint := { dist : option Distribution }.

(** ** The resolution algorithm *)

Section get_deps.
(** What the algorithm reads from its environment: the entry points
    installed locally, per group ([_entry_points(group)], a mapping keyed
    by entry-point name), and the renderings by Python's [repr] of a
    sequence or mapping, of a catalog entry and of the configuration file
    name, which only occur inside messages. *)
Variable _entry_points : string → gmap string EntryPoint.
Variable repr : value → string.
Variable repr_project : Project → string.
Variable repr_config_file : string.

(** [str(v)], as an f-string formats [v]. *)
Definition py_str (v : value) : string :=
  match v with
  | VAtom a => str_of_atom a
  | _ => repr v
  end.

Definition is_None (v : value) : bool :=
  match v with VAtom ANone => true | _ => false end.

(** [obj is _NotFound] *)
Definition is_NotFound (obj : option value) : bool :=
  match obj with None => true | Some _ => false end.

(** [obj == s] for a string [s]: only the same string is equal to it. *)
Definition eq_str (obj : option value) (s : string) : bool :=
  match obj with
  | Some (VAtom (AStr s')) => String.eqb s' s
  | _ => false
  end.

(** The name under which a declared [entry_name] is looked up in [wanted]:
    the condition of lines 159-166 and the assignment of line 167.
    [len(theme)] is evaluated only once [startswith] has succeeded. *)
Definition effective_name (theme : value) (kind : _PluginKind)
    (wanted : gset atom) (entry_name : string) : result string :=
  if contains "/" entry_name
     && negb (is_None theme)
     && String.eqb (projects_key kind) "mkdocs_plugin"
     && startswith entry_name (py_str theme +:+ "/")
  then
    n ← py_len theme;
    if bool_decide (AStr (str_drop (n + 1) entry_name) ∈ wanted)
       && bool_decide (AStr entry_name ∉ wanted)
    then Ok (str_drop (n + 1) entry_name)
    else Ok entry_name
  else Ok entry_name.

(** Lines 169-177: how to install the project, if the catalog says. *)
Definition install_name (project : Project) : option string :=
  match pypi_id project with
  | Some id => Some id
  | None =>
      match github_id project with
      | Some id => Some ("git+https://github.com/" +:+ id)
      | None => None
      end
  end.

(** Lines 179-181. *)
Definition add_extras (cfg : value) (project : Project)
    (packages_to_install : gset string) : gset string :=
  foldl (λ packages '(extra_key, extra_pkgs),
           if negb (is_NotFound (_dig cfg extra_key))
           then packages ∪ list_to_set (_strings_decl (Some extra_pkgs))
           else packages)
        packages_to_install (map_to_list (extra_dependencies project)).

Definition install_error (kind : _PluginKind) (entry_name : string)
    (project : Project) : string :=
  "Can't find how to install " +:+ kind_str kind +:+ " '" +:+ entry_name
    +:+ "' although it was identified as " +:+ repr_project project.

(** The body of [for entry_name in available], lines 159-183, on the
    package set and the [wanted] set of the kind at hand. *)
Definition scan_entry (cfg theme : value) (project : Project)
    (kind : _PluginKind) (st : gset string * gset atom)
    (entry_name : string) : M (gset string * gset atom) :=
  entry_name ← lift (effective_name theme kind st.2 entry_name);
  if bool_decide (AStr entry_name ∈ st.2) then
    match install_name project with
    | Some install_name =>
        mret (add_extras cfg project ({[install_name]} ∪ st.1),
              st.2 ∖ {[AStr entry_name]})
    | None =>
        _ ← log ERROR (install_error kind entry_name project);
        mret st
    end
  else mret st.

(** The body of [for kind, wanted in wanted_plugins], lines 157-183. *)
Definition scan_kind (cfg theme : value) (project : Project)
    (kind : _PluginKind) (st : gset string * gset atom)
  : M (gset string * gset atom) :=
  foldM (scan_entry cfg theme project kind) st
        (_strings_decl (project_get project (projects_key kind))).

(** [for kind, wanted in wanted_plugins], for one project: every [wanted]
    set is updated in place, the package set is shared. *)
Fixpoint scan_kinds (cfg theme : value) (project : Project)
    (packages_to_install : gset string)
    (wanted_plugins : list (_PluginKind * gset atom))
  : M (gset string * list (_PluginKind * gset atom)) :=
  match wanted_plugins with
  | [] => mret (packages_to_install, [])
  | (kind, wanted) :: rest =>
      st ← scan_kind cfg theme project kind (packages_to_install, wanted);
      st' ← scan_kinds cfg theme project st.1 rest;
      mret (st'.1, (kind, st.2) :: st'.2)
  end.

(** [for project in projects], lines 155-183. *)
Definition scan (cfg theme : value) (projects : list Project)
    (st : gset string * list (_PluginKind * gset atom))
  : M (gset string * list (_PluginKind * gset atom)) :=
  foldM (λ st project, scan_kinds cfg theme project st.1 st.2) st projects.

(** Lines 187-199 for one remaining name.  The entry points are keyed by
    strings, so [.get] of another scalar finds nothing. *)
Definition diagnose (kind : _PluginKind) (entry_name : atom) : M unit :=
  let ep :=
    match entry_name with
    | AStr s => _entry_points (entry_points_key kind) !! s
    | _ => None
    end in
  let dist_name : option string :=
    match ep with
    | Some e => match dist e with Some d => Some (name d) | None => None end
    | None => None
    end in
  if bool_decide (dist_name ∉ [Some "mkdocs"; Some "Markdown"]) then
    let warning :=
      capitalize (kind_str kind) +:+ " '" +:+ str_of_atom entry_name
        +:+ "' is not provided by any registered project" in
    match ep with
    | Some _ =>
        log INFO
          (warning +:+ " but is installed locally" +:+
             match dist_name with
             | Some d => if String.eqb d "" then ""
                         else " from '" +:+ d +:+ "'"
             | None => ""
             end)
    | None => log WARNING warning
    end
  else mret tt.

(** Lines 185-199. *)
Definition report (wanted_plugins : list (_PluginKind * gset atom)) : M unit :=
  foldM (λ _ kw,
           names ← lift (py_sorted (elements kw.2));
           foldM (λ _ entry_name, diagnose kw.1 entry_name) tt names)
        tt wanted_plugins.

Definition markers : list string :=
  ["site_name"; "theme"; "plugins"; "markdown_extensions"].

(** Lines 123-131: the package of MkDocs itself. *)
Definition base_packages (cfg : value) (d : gmap string value) : M (gset string) :=
  if forallb (λ c, bool_decide (d !! c = None)) markers then
    _ ← log WARNING ("The file " +:+ repr_config_file +:+
                       " doesn't seem to be a mkdocs.yml config file");
    mret ∅
  else if negb (is_NotFound (_dig cfg "theme.locale")
                || eq_str (_dig cfg "theme.locale") "en")
  then mret {["mkdocs[i18n]"]}
  else mret {["mkdocs"]}.

(** Lines 133-136: [cfg["theme"]["name"]], or [cfg.get("theme")] when
    that raises [KeyError] or [TypeError] ([getitem] raises no other). *)
Definition config_theme (cfg : value) (d : gmap string value) : value :=
  match t ← getitem cfg "theme"; getitem t "name" with
  | Ok v => v
  | Raise _ => default VNone (d !! "theme")
  end.

(** Lines 137-146. *)
Definition wanted_sets (cfg theme : value)
  : result (list (_PluginKind * gset atom)) :=
  themes ← (if truthy theme then a ← py_hash theme; Ok {[a]} else Ok ∅);
  plugins ← (l ← _strings (_dig cfg "plugins"); py_set l);
  extensions ← (l ← _strings (_dig cfg "markdown_extensions"); py_set l);
  Ok [ (theme_kind, themes ∖ {[AStr "mkdocs"; AStr "readthedocs"]});
       (plugin_kind, plugins ∖ {[AStr "search"]});
       (extension_kind, extensions) ].

(** Lines 147-148: the f-string of the debug record sorts every set. *)
Definition debug_wanted (wanted_plugins : list (_PluginKind * gset atom))
  : M unit :=
  foldM (λ _ kw, _ ← lift (py_sorted (elements kw.2)); mret tt)
        tt wanted_plugins.

(** [get_deps], from the parsed configuration [cfg] (line 118) and the
    parsed [projects] of the catalog (line 153) on. *)
Definition get_deps (projects : list Project) (cfg : value) : M (list string) :=
  match cfg with
  | VDict d =>
      packages_to_install ← base_packages cfg d;
      let theme := config_theme cfg d in
      wanted_plugins ← lift (wanted_sets cfg theme);
      _ ← debug_wanted wanted_plugins;
      st ← scan cfg theme projects (packages_to_install, wanted_plugins);
      _ ← report st.2;
      mret (merge_sort String.le (elements st.1))
  | _ => MkM [] (Raise ValueError)
  end.

End get_deps.

(** * The vocabulary of the statements *)

(** What an item of a [plugins]-like sequence says: a mapping of one key
    names that key with its value, a bare string names itself with an empty
    mapping. *)
Definition item_names (item : value) (k : string) (v : value) : Prop :=
  item = VDict {[k := v]} ∨ (item = VStr k ∧ v = VDict ∅).

(** The conditions under which a declared name stands for the part after
    its separator, for a theme that is a string: the kind is plugin, the
    theme of the configuration is the string [t] (any string, the empty one
    included, as the code tests [theme is not None]), the declared name is
    [t], the separator and [suffix], the suffix is wanted and the declared
    name itself is not. *)
Definition namespace_match (theme : value) (kind : _PluginKind)
    (wanted : gset atom) (entry_name suffix : string) : Prop :=
  projects_key kind = "mkdocs_plugin" ∧
  ∃ t, theme = VStr t ∧ entry_name = t +:+ "/" +:+ suffix ∧
       AStr suffix ∈ wanted ∧ AStr entry_name ∉ wanted.

(** The packages of the extra-dependency rules of [project] whose path is
    found in [cfg]. *)
Definition active_extra (cfg : value) (project : Project) (x : string) : Prop :=
  ∃ extra_key extra_pkgs,
    extra_dependencies project !! extra_key = Some extra_pkgs ∧
    _dig cfg extra_key ≠ _NotFound ∧
    x ∈ _strings_decl (Some extra_pkgs).

(** Every package [project] can put in the result. *)
Definition provides (cfg : value) (project : Project) (x : string) : Prop :=
  install_name project = Some x ∨ active_extra cfg project x.

(** The relation between the states before and after a part of the scan
    that returned: packages are only added, and only packages that a
    project scanned provides; names only leave a wanted set. *)
Definition grows (cfg : value) (projects : list Project)
    (packages packages' : gset string) : Prop :=
  packages ⊆ packages' ∧
  ∀ x, x ∈ packages' →
       x ∈ packages ∨ ∃ project, project ∈ projects ∧ provides cfg project x.

Definition shrinks (wanted_plugins wanted_plugins' : list (_PluginKind * gset atom))
  : Prop :=
  Forall2 (λ kw kw', kw'.1 = kw.1 ∧ kw'.2 ⊆ kw.2) wanted_plugins wanted_plugins'.

Definition has_marker (d : gmap string value) : Prop :=
  ∃ c, c ∈ markers ∧ d !! c ≠ None.

(** [theme.locale] is found, possibly with the value [None], and is not
    the string "en". *)
Definition locale_selects_i18n (cfg : value) : Prop :=
  ∃ v, _dig cfg "theme.locale" = Some v ∧ v ≠ VStr "en".

(** Python's [a <= b] on scalars, where it is defined. *)
Definition atom_le (a b : atom) : Prop :=
  match a, b with
  | AStr x, AStr y => String.le x y
  | _, _ =>
      match atom_num a, atom_num b with
      | Some x, Some y => (x ≤ y)%Z
      | _, _ => False
      end
  end.

(** The text every diagnostic starts with. *)
Definition not_provided (kind : _PluginKind) (entry_name : atom) : string :=
  capitalize (kind_str kind) +:+ " '" +:+ str_of_atom entry_name
    +:+ "' is not provided by any registered project".

(** [entry_name] is registered locally for [kind] by the entry point [ep]. *)
Definition registered (_entry_points : string → gmap string EntryPoint)
    (kind : _PluginKind) (entry_name : atom) (ep : EntryPoint) : Prop :=
  ∃ s, entry_name = AStr s ∧
       _entry_points (entry_points_key kind) !! s = Some ep.


(** A set of names, all of them strings. *)
Definition all_str (wanted : gset atom) : Prop :=
  ∀ a, a ∈ wanted → ∃ s, a = AStr s.

(** The names that the value of [plugins] or [markdown_extensions] asks
    for: the string itself, the keys of a mapping, the names of the items of
    a sequence. *)
Definition names_in (v : option value) (s : string) : Prop :=
  match v with
  | Some (VAtom (AStr s')) => s' = s
  | Some (VDict m) => is_Some (m !! s)
  | Some (VList l) => ∃ item v', item ∈ l ∧ item_names item s v'
  | _ => False
  end.

(** [a] is a name that a project of [projects] with an install identifier
    declares for [kind]. *)
Definition declared_installable (projects : list Project) (kind : _PluginKind)
    (a : atom) : Prop :=
  ∃ project entry_name,
    project ∈ projects ∧ install_name project ≠ None ∧
    entry_name ∈ _strings_decl (project_get project (projects_key kind)) ∧
    a = AStr entry_name.

(** What the scan of [projects] does to the wanted set of one [kind]:
    project after project, the loop over the entries declared for [kind]
    takes the set from [wanted] to [wanted'] (the package set it runs with
    is whatever the scan has reached). *)
Inductive wanted_chain (repr : value → string) (repr_project : Project → string)
    (cfg theme : value) (kind : _PluginKind)
  : list Project → gset atom → gset atom → Prop :=
| wanted_chain_nil wanted :
    wanted_chain repr repr_project cfg theme kind [] wanted wanted
| wanted_chain_cons project projects packages lg packages' wanted wanted1 wanted' :
    scan_kind repr repr_project cfg theme project kind (packages, wanted)
      = MkM lg (Ok (packages', wanted1)) →
    wanted_chain repr repr_project cfg theme kind projects wanted1 wanted' →
    wanted_chain repr repr_project cfg theme kind (project :: projects)
      wanted wanted'.

(** * Data for the worked examples *)

(** A catalog in the shape of the project's test catalog, an environment
    with three plugins installed locally, and the renderings left open. *)

Definition ex_project (theme plugin extension : option decl)
    (pypi github : option string) (extras : gmap string decl) : Project :=
  {| mkdocs_theme := theme; mkdocs_plugin := plugin;
     markdown_extension := extension; pypi_id := pypi; github_id := github;
     extra_dependencies := extras |}.

Definition ex_catalog : list Project :=
  [ ex_project (Some (One "material"))
               (Some (Many ["material/search"; "material/tags"])) None
               (Some "mkdocs-material") None ∅;
    ex_project None (Some (One "tags")) None (Some "mkdocs-plugin-tags") None ∅;
    ex_project None (Some (One "blog")) None
               None (Some "andyoakley/mkdocs-blog") ∅;
    ex_project None (Some (One "orphan")) None None None ∅;
    ex_project None (Some (One "mkdocstrings")) None (Some "mkdocstrings") None
               {[ "plugins.mkdocstrings.handlers.python" := One "mkdocstrings-python";
                  "theme.locale" := Many ["babel"; "pytz"] ]};
    ex_project None (Some (One "redirects")) None (Some "mkdocs-redirects") None ∅;
    ex_project None None (Some (Many ["pymdownx.emoji"; "pymdownx.snippets"]))
               (Some "pymdown-extensions") None ∅ ].

Definition ex_entry_points (group : string) : gmap string EntryPoint :=
  if String.eqb group "mkdocs.plugins" then
    {[ "search" := {| dist := Some {| name := "mkdocs" |} |};
       "local" := {| dist := Some {| name := "my-plugins" |} |};
       "unowned" := {| dist := None |} ]}
  else ∅.

Definition ex_get_deps : list Project → value → M (list string) :=
  get_deps ex_entry_points (λ _, "<object>") (λ _, "<project>") "'mkdocs.yml'".

(** [plugins: [tags]] with [theme: material]: the namespaced entry of the
    theme comes first in the catalog and satisfies the request. *)
Definition ex_cfg_theme_precedence : value :=
  VDict {[ "site_name" := VStr "Test";
           "plugins" := VList [VStr "tags"];
           "theme" := VStr "material" ]}.

(** Names that no project provides, with and without local registration,
    and a project without install identifier. *)
Definition ex_cfg_unknown : value :=
  VDict {[ "plugins" := VList [VStr "zzz"; VStr "local"; VStr "redirects";
                               VStr "search"; VStr "unowned"; VStr "orphan"];
           "theme" := VStr "qndyakplooyh";
           "markdown_extensions" := VList [VStr "saqdhyndpvpa"] ]}.

(** An extra dependency keyed on a path that is found with the value null. *)
Definition ex_cfg_extras : value :=
  VDict {[ "theme" := VDict {[ "name" := VStr "mkdocs"; "locale" := VNone ]};
           "plugins" := VList [VDict {[ "mkdocstrings" := VNone ]}] ]}.

(** Two projects that declare the same plugin, and the same catalog behind
    a project that declares it without saying how to install it. *)
Definition ex_catalog_twice : list Project :=
  [ ex_project None (Some (One "x")) None (Some "first") None ∅;
    ex_project None (Some (One "x")) None (Some "second") None ∅ ].

Definition ex_catalog_orphan_first : list Project :=
  ex_project None (Some (One "x")) None None None ∅ :: ex_catalog_twice.

Definition ex_cfg_x : value :=
  VDict {[ "site_name" := VStr "Test"; "plugins" := VList [VStr "x"] ]}.

(** A catalog that itself provides the package of MkDocs. *)
Definition ex_catalog_mkdocs : list Project :=
  [ ex_project None (Some (One "foo")) None (Some "mkdocs") None ∅ ].

Definition ex_cfg_locale_uk : value :=
  VDict {[ "theme" := VDict {[ "name" := VStr "mkdocs"; "locale" := VStr "uk" ]};
           "plugins" := VList [VStr "foo"] ]}.

(** * Properties *)

(** ** Reasoning about [M] *)

Lemma M_eta {A} (m : M A) : m = MkM (logged m) (outcome m).
Proof. destruct m; reflexivity. Qed.

Lemma bind_Ok_inv {A B} (m : M A) (f : A → M B) lg b :
  m ≫= f = MkM lg (Ok b) →
  ∃ a l1 l2, m = MkM l1 (Ok a) ∧ f a = MkM l2 (Ok b) ∧ lg = l1 ++ l2.
Proof.
  destruct m as [l1 [a|e]]; unfold mbind, M_bind; simpl; [|discriminate].
  intros [= <- Hout]. exists a, l1, (logged (f a)).
  rewrite <- Hout. split_and!; [reflexivity | apply M_eta | reflexivity].
Qed.

Lemma bind_Ok {A B} (f : A → M B) l1 a :
  MkM l1 (Ok a) ≫= f = MkM (l1 ++ logged (f a)) (outcome (f a)).
Proof. reflexivity. Qed.

Lemma lift_Ok_inv {A} (r : result A) lg a :
  lift r = MkM lg (Ok a) → r = Ok a ∧ lg = [].
Proof. unfold lift. intros [= <- ->]. auto. Qed.

Lemma ret_Ok_inv {A} (x : A) lg a : mret x = MkM lg (Ok a) → x = a ∧ lg = [].
Proof. unfold mret, M_ret. intros [= <- ->]. auto. Qed.

(** Inverts a hypothesis saying that a sequence of binds returned. *)
Ltac inv_M H :=
  repeat match type of H with
  | _ ≫= _ = MkM _ (Ok _) =>
      let a := fresh "a" in let l1 := fresh "lg" in let l2 := fresh "lg" in
      let H1 := fresh "Hm" in let Hl := fresh "Hlg" in
      apply bind_Ok_inv in H as (a & l1 & l2 & H1 & H & Hl)
  end.

(** An invariant of the state is kept by a monadic fold that returns. *)
Lemma foldM_Ok_ind {A S} (P : S → S → Prop) (f : S → A → M S) :
  (∀ s, P s s) →
  (∀ s1 s2 s3, P s1 s2 → P s2 s3 → P s1 s3) →
  ∀ l,
  (∀ s x lg s', x ∈ l → f s x = MkM lg (Ok s') → P s s') →
  ∀ s lg s', foldM f s l = MkM lg (Ok s') → P s s'.
Proof.
  intros Hrefl Htrans l. induction l as [|x l IH]; intros Hf s lg s' H; simpl in H.
  - apply ret_Ok_inv in H as [-> _]. apply Hrefl.
  - apply bind_Ok_inv in H as (s1 & l1 & l2 & H1 & H2 & _).
    eapply Htrans.
    + eapply Hf; [left | exact H1].
    + eapply IH; [|exact H2]. intros ? ? ? ? Hin. eapply Hf. by right.
Qed.

(** A fold over a list in two parts is the fold over the first part followed
    by the fold over the second from the state reached. *)
Lemma foldM_app {A S} (f : S → A → M S) l1 l2 s lg s' :
  foldM f s (l1 ++ l2) = MkM lg (Ok s') ↔
  ∃ s1 lg1 lg2, foldM f s l1 = MkM lg1 (Ok s1) ∧
                foldM f s1 l2 = MkM lg2 (Ok s') ∧ lg = lg1 ++ lg2.
Proof.
  revert s lg. induction l1 as [|x l1 IH]; intros s lg; simpl.
  - split.
    + intros H. exists s, [], lg. by rewrite H.
    + intros (s1 & lg1 & lg2 & [-> ->]%ret_Ok_inv & H2 & ->). done.
  - split.
    + intros (s0 & l0 & l0' & H1 & H2 & ->)%bind_Ok_inv.
      apply IH in H2 as (s1 & lg1 & lg2 & Ha & Hb & ->).
      exists s1, (l0 ++ lg1), lg2. split_and!; [|done|by rewrite app_assoc].
      rewrite H1, bind_Ok, Ha. done.
    + intros (s1 & lg1 & lg2 & (s0 & l0 & l0' & H1 & H2 & ->)%bind_Ok_inv & Hb & ->).
      rewrite H1, bind_Ok.
      assert (foldM f s0 (l1 ++ l2) = MkM (l0' ++ lg2) (Ok s')) as ->.
      { apply IH. eauto 10. }
      simpl. by rewrite app_assoc.
Qed.

(** A monadic fold whose steps write nothing writes nothing. *)
Lemma foldM_silent {A S} (f : S → A → M S) :
  (∀ s x lg s', f s x = MkM lg (Ok s') → lg = []) →
  ∀ l s lg s', foldM f s l = MkM lg (Ok s') → lg = [].
Proof.
  intros Hf l. induction l as [|x l IH]; intros s lg s' H; simpl in H.
  - by apply ret_Ok_inv in H as [_ ->].
  - apply bind_Ok_inv in H as (s1 & l1 & l2 & H1 & H2 & ->).
    apply Hf in H1 as ->. by apply IH in H2 as ->.
Qed.

(** ** The nested-key accessor *)

Lemma _dig_eq cfg keys :
  _dig cfg keys =
    match getitem cfg (partition "." keys).1 with
    | Raise _ => _NotFound
    | Ok v =>
        if decide ((partition "." keys).2 = "") then Some (flat v)
        else _dig (flat v) (partition "." keys).2
    end.
Proof.
  funelim (_dig cfg keys); rewrite Hpart; simpl; rewrite Heq; done.
Qed.

(** A path of one segment reads the key and flattens what it finds. *)
Lemma _dig_segment d key :
  partition "." key = (key, "") → _dig (VDict d) key = flat <$> d !! key.
Proof.
  intros Hp. rewrite _dig_eq, Hp. simpl. by destruct (d !! key).
Qed.

(** ** The flattening step of [_dig] *)

(** The reverse traversal handles the head of the sequence last. *)
Lemma flatten_cons item l : flatten (item :: l) = flatten_step (flatten l) item.
Proof. unfold flatten. by rewrite reverse_cons, foldl_snoc. Qed.

Lemma map_size_1_singleton {A} (d : gmap string A) :
  size d = 1 → ∃ k v, d = {[k := v]}.
Proof.
  intros Hsz.
  destruct (map_choose d) as (k & v & Hk).
  { intros ->. by rewrite map_size_empty in Hsz. }
  exists k, v.
  assert (delete k d = ∅) as Hdel.
  { apply map_size_empty_iff. rewrite map_size_delete, Hk. lia. }
  rewrite <- (insert_id d k v Hk), <- insert_delete_eq, Hdel. done.
Qed.

Lemma flatten_step_names cfg item k v :
  item_names item k v → flatten_step cfg item !! k = Some v.
Proof.
  intros [-> | [-> ->]]; simpl.
  - rewrite map_size_singleton. simpl.
    apply lookup_union_Some_raw. left. apply lookup_singleton_eq.
  - apply lookup_insert_eq.
Qed.

Lemma flatten_step_other cfg item k :
  (∀ v, ¬ item_names item k v) → flatten_step cfg item !! k = cfg !! k.
Proof.
  intros Hno. destruct item as [[| | |s]|l|d]; simpl; try done.
  - apply lookup_insert_ne. intros ->. apply (Hno (VDict ∅)). by right.
  - destruct (decide (size d = 1)) as [Hsz|]; [|done].
    apply map_size_1_singleton in Hsz as (k' & v' & ->).
    apply lookup_union_r, lookup_singleton_ne. intros ->.
    apply (Hno v'). by left.
Qed.

(** C4 (as the code has it). A bare string is recorded with an empty mapping
    as its value whether or not its key is already present: when the reverse
    traversal reaches the string [s], the value that later elements of the
    sequence gave to [s] is replaced, and no other key changes. *)
Theorem flatten_bare_string_overwrites (l : list value) (s : string) :
  flatten (VStr s :: l) !! s = Some (VDict ∅) ∧
  ∀ k, k ≠ s → flatten (VStr s :: l) !! k = flatten l !! k.
Proof.
  rewrite flatten_cons. simpl. split.
  - apply lookup_insert_eq.
  - intros k Hk. by apply lookup_insert_ne.
Qed.

(** C4 (as stated) fails: in the sequence ["a", {"a": 1}] the reverse
    traversal first sets "a" to 1, and the bare string "a" then overwrites
    it, although the key is present. *)
Lemma flatten_bare_string_keeps_present_fails :
  flatten [VDict {["a" := VInt 1]}] !! "a" = Some (VInt 1) ∧
  ¬ (flatten_step (flatten [VDict {["a" := VInt 1]}]) (VStr "a") !! "a"
       = flatten [VDict {["a" := VInt 1]}] !! "a") ∧
  flatten [VStr "a"; VDict {["a" := VInt 1]}] !! "a" = Some (VDict ∅).
Proof. vm_compute. split_and!; [reflexivity | discriminate | reflexivity]. Qed.

(** C5. In the flat mapping of a sequence, a name has the value of its first
    occurrence in the order of the sequence: if the item at index [i] names
    [k] with value [v] (a bare string names itself with an empty mapping)
    and no item before it names [k], then [k] is mapped to [v], whatever
    the items after index [i] say.  Items that are neither a mapping of one
    key nor a string name nothing. *)
Theorem flatten_first_occurrence_wins (l : list value) (i : nat)
    (item : value) (k : string) (v : value) :
  l !! i = Some item →
  item_names item k v →
  (∀ j item' v', j < i → l !! j = Some item' → ¬ item_names item' k v') →
  flatten l !! k = Some v.
Proof.
  revert i. induction l as [|x l IH]; intros i Hi Hnames Hfirst; [done|].
  rewrite flatten_cons. destruct i as [|i]; simpl in Hi.
  - injection Hi as ->. by apply flatten_step_names.
  - rewrite flatten_step_other.
    + apply (IH i); [done..|]. intros j item' v' Hj Hl.
      apply (Hfirst (S j)); [lia | done].
    + intros v'. apply (Hfirst 0); [lia | done].
Qed.

Lemma flatten_first_occurrence_wins_witness :
  flatten [VDict {["b" := VNone]}; VStr "a"; VDict {["a" := VInt 1]}; VStr "b"]
    !! "a" = Some (VDict ∅).
Proof.
  apply (flatten_first_occurrence_wins _ 1 (VStr "a") "a" (VDict ∅)).
  - reflexivity.
  - right. split; reflexivity.
  - intros j item' v' Hj Hl.
    assert (j = 0) as -> by lia. injection Hl as <-.
    intros [H | [H _]]; [|discriminate].
    apply (f_equal (λ x, match x with VDict m => m !! "b" | _ => None end)) in H.
    vm_compute in H. discriminate.
Defined.

(** ** Strings *)

Lemma app_cons a s t : String a s +:+ t = String a (s +:+ t).
Proof. reflexivity. Qed.

Lemma app_empty t : "" +:+ t = t.
Proof. reflexivity. Qed.

Lemma app_assoc_str s t u : (s +:+ t) +:+ u = s +:+ t +:+ u.
Proof. induction s as [|a s IH]; [done|]. by rewrite !app_cons, IH. Qed.

Lemma app_length s t : String.length (s +:+ t) = String.length s + String.length t.
Proof. induction s as [|a s IH]; [done|]. rewrite app_cons. simpl. by rewrite IH. Qed.

Lemma startswith_app s p : startswith s p = true ↔ ∃ r, s = p +:+ r.
Proof.
  unfold startswith. revert s. induction p as [|a p IH]; intros s.
  - split; [intros _; by exists s | by destruct s].
  - destruct s as [|b s]; simpl.
    + split; [done | intros [r Hr]; by rewrite app_cons in Hr].
    + destruct (ascii_dec a b) as [->|Hne].
      * rewrite IH. split; intros [r Hr]; exists r.
        -- by rewrite app_cons, Hr.
        -- rewrite app_cons in Hr. congruence.
      * split; [done | intros [r Hr]; rewrite app_cons in Hr; congruence].
Qed.

Lemma str_drop_app p r : str_drop (String.length p) (p +:+ r) = r.
Proof. induction p as [|a p IH]; [by destruct r | by rewrite app_cons]. Qed.

Lemma contains_app_r c s t : contains c t = true → contains c (s +:+ t) = true.
Proof.
  intros Ht. induction s as [|a s IH]; [done|].
  rewrite app_cons. simpl. rewrite IH. apply orb_true_r.
Qed.

(** ** The theme-namespace rule of the catalog matcher *)

Section matcher.
Variable repr : value → string.
Variable repr_project : Project → string.

Local Abbreviation effective_name := (effective_name repr).
Local Abbreviation scan_entry := (scan_entry repr repr_project).
Local Abbreviation scan_kind := (scan_kind repr repr_project).
Local Abbreviation scan_kinds := (scan_kinds repr repr_project).
Local Abbreviation scan := (scan repr repr_project).

Lemma effective_name_namespaced theme kind wanted entry_name suffix :
  namespace_match theme kind wanted entry_name suffix →
  effective_name theme kind wanted entry_name = Ok suffix.
Proof.
  intros (Hkind & t & -> & -> & Hin & Hnot). unfold effective_name.
  rewrite Hkind. simpl.
  rewrite contains_app_r by done. simpl.
  assert (startswith (t +:+ "/" +:+ suffix) (t +:+ "/") = true) as ->.
  { apply startswith_app. exists suffix. by rewrite app_assoc_str. }
  simpl.
  replace (String.length t + 1) with (String.length (t +:+ "/"))
    by (rewrite app_length; done).
  rewrite <- app_assoc_str, str_drop_app.
  rewrite !bool_decide_eq_true_2; [done | by rewrite app_assoc_str | done].
Qed.

Lemma effective_name_exact theme kind wanted entry_name :
  (projects_key kind = "mkdocs_plugin" →
   theme = VNone ∨ ∃ t, theme = VStr t) →
  (∀ suffix, ¬ namespace_match theme kind wanted entry_name suffix) →
  effective_name theme kind wanted entry_name = Ok entry_name.
Proof.
  intros Htheme Hno. unfold effective_name.
  destruct (contains "/" entry_name); [|done].
  destruct (is_None theme) eqn:HNone; [done|].
  destruct (String.eqb_spec (projects_key kind) "mkdocs_plugin") as [Hk|]; [|done].
  simpl.
  destruct (Htheme Hk) as [-> | [t ->]]; [done|]. simpl.
  destruct (startswith entry_name (t +:+ "/")) eqn:Hpre; [|done].
  apply startswith_app in Hpre as [r ->].
  replace (String.length t + 1) with (String.length (t +:+ "/"))
    by (rewrite app_length; done).
  rewrite str_drop_app.
  destruct (bool_decide (AStr r ∈ wanted)) eqn:Hin; [|done].
  destruct (bool_decide (AStr ((t +:+ "/") +:+ r) ∉ wanted)) eqn:Hnot; [|done].
  apply bool_decide_eq_true in Hin, Hnot. exfalso.
  apply (Hno r). split; [done|].
  exists t. rewrite <- app_assoc_str. done.
Qed.

Lemma scan_entry_unwanted cfg theme project kind st entry_name n :
  effective_name theme kind st.2 entry_name = Ok n →
  AStr n ∉ st.2 →
  scan_entry cfg theme project kind st entry_name = MkM [] (Ok st).
Proof.
  intros Hn Hnot. unfold scan_entry. rewrite Hn.
  unfold lift. rewrite bind_Ok. simpl.
  by rewrite bool_decide_eq_false_2.
Qed.

Lemma scan_entry_wanted cfg theme project kind st entry_name n :
  effective_name theme kind st.2 entry_name = Ok n →
  AStr n ∈ st.2 →
  scan_entry cfg theme project kind st entry_name =
    match install_name project with
    | Some id =>
        MkM [] (Ok (add_extras cfg project ({[id]} ∪ st.1), st.2 ∖ {[AStr n]}))
    | None =>
        MkM [LogRecord ERROR (install_error repr_project kind n project)] (Ok st)
    end.
Proof.
  intros Hn Hin. unfold scan_entry. rewrite Hn.
  unfold lift. rewrite bind_Ok. simpl.
  rewrite bool_decide_eq_true_2 by done.
  by destruct (install_name project).
Qed.

Lemma effective_name_no_rule theme kind wanted entry_name :
  projects_key kind ≠ "mkdocs_plugin" ∨ theme = VNone →
  effective_name theme kind wanted entry_name = Ok entry_name.
Proof.
  intros Hplain. unfold effective_name.
  destruct (contains "/" entry_name); [|done].
  destruct Hplain as [Hk | ->]; [|done].
  apply String.eqb_neq in Hk. rewrite Hk.
  by rewrite andb_false_r.
Qed.

Lemma effective_name_scalar_theme a kind wanted entry_name :
  a ≠ ANone → (∀ s, a ≠ AStr s) →
  projects_key kind = "mkdocs_plugin" →
  ((∃ rest, entry_name = str_of_atom a +:+ "/" +:+ rest) →
     effective_name (VAtom a) kind wanted entry_name = Raise TypeError) ∧
  ((∀ rest, entry_name ≠ str_of_atom a +:+ "/" +:+ rest) →
     effective_name (VAtom a) kind wanted entry_name = Ok entry_name).
Proof.
  intros Hnone Hstr Hkind. unfold effective_name. rewrite Hkind. split.
  - intros [rest ->].
    rewrite contains_app_r by done.
    assert (negb (is_None (VAtom a)) = true) as -> by by destruct a.
    assert (startswith (str_of_atom a +:+ "/" +:+ rest)
              (py_str repr (VAtom a) +:+ "/") = true) as ->.
    { apply startswith_app. exists rest. simpl. by rewrite app_assoc_str. }
    simpl. destruct a as [| | |s]; try done. by destruct (Hstr s).
  - intros Hno.
    destruct (startswith entry_name (py_str repr (VAtom a) +:+ "/")) eqn:Hpre.
    + apply startswith_app in Hpre as [rest ->]. simpl in Hno.
      destruct (Hno rest). by rewrite app_assoc_str.
    + by rewrite andb_false_r.
Qed.

Lemma effective_name_container_theme theme kind wanted entry_name len :
  (∀ a, theme ≠ VAtom a) →
  py_len theme = Ok len →
  projects_key kind = "mkdocs_plugin" →
  effective_name theme kind wanted entry_name =
    Ok (if startswith entry_name (repr theme +:+ "/")
           && bool_decide (AStr (str_drop (len + 1) entry_name) ∈ wanted)
           && bool_decide (AStr entry_name ∉ wanted)
        then str_drop (len + 1) entry_name
        else entry_name).
Proof.
  intros Hcont Hlen Hkind. unfold effective_name. rewrite Hkind, Hlen.
  assert (is_None theme = false) as ->.
  { destruct theme as [a| |]; [by destruct (Hcont a) | done..]. }
  assert (py_str repr theme = repr theme) as ->.
  { destruct theme as [a| |]; [by destruct (Hcont a) | done..]. }
  destruct (startswith entry_name (repr theme +:+ "/")) eqn:Hpre.
  - apply startswith_app in Hpre as Hpre'. destruct Hpre' as [rest Hrest].
    assert (contains "/" entry_name = true) as ->.
    { rewrite Hrest, app_assoc_str. by apply contains_app_r. }
    simpl. by destruct (_ && _).
  - rewrite andb_false_r. simpl. done.
Qed.

(** C3 (as the code has it). During catalog matching a declared name is
    looked up in the wanted set either as it is declared or under a
    remainder, and the entry matches iff the name so looked up is wanted.
    - For the theme and extension kinds, and when the theme is [None], the
      name is looked up as declared.
    - For the plugin kind and a theme that is a string [t], the empty
      string included (the test is [theme is not None], not truthiness),
      the name is looked up under [suffix] exactly when it is [t], the
      separator and [suffix], the suffix is wanted and the declared name is
      not; otherwise as declared.
    - For the plugin kind and a theme that is a number or a boolean, a
      declared name that starts with the rendering of the theme and the
      separator makes [len(theme)] raise [TypeError], which ends the
      resolution; every other name is looked up as declared.
    - For the plugin kind and a theme that is a sequence or a mapping, the
      remainder starts [len(theme) + 1] characters into the declared name,
      which need not be the part after the separator. *)
Theorem namespace_override_rule (cfg theme : value) (project : Project)
    (kind : _PluginKind) (packages : gset string) (wanted : gset atom)
    (entry_name : string) :
  (projects_key kind ≠ "mkdocs_plugin" ∨ theme = VNone →
     effective_name theme kind wanted entry_name = Ok entry_name) ∧
  (∀ suffix, namespace_match theme kind wanted entry_name suffix →
     effective_name theme kind wanted entry_name = Ok suffix) ∧
  ((∃ t, theme = VStr t) →
   (∀ suffix, ¬ namespace_match theme kind wanted entry_name suffix) →
     effective_name theme kind wanted entry_name = Ok entry_name) ∧
  (∀ a, theme = VAtom a → a ≠ ANone → (∀ s, a ≠ AStr s) →
     projects_key kind = "mkdocs_plugin" →
     ((∃ rest, entry_name = str_of_atom a +:+ "/" +:+ rest) →
        effective_name theme kind wanted entry_name = Raise TypeError ∧
        scan_entry cfg theme project kind (packages, wanted) entry_name
          = MkM [] (Raise TypeError)) ∧
     ((∀ rest, entry_name ≠ str_of_atom a +:+ "/" +:+ rest) →
        effective_name theme kind wanted entry_name = Ok entry_name)) ∧
  (∀ len, (∀ a, theme ≠ VAtom a) → py_len theme = Ok len →
     projects_key kind = "mkdocs_plugin" →
     effective_name theme kind wanted entry_name =
       Ok (if startswith entry_name (repr theme +:+ "/")
              && bool_decide (AStr (str_drop (len + 1) entry_name) ∈ wanted)
              && bool_decide (AStr entry_name ∉ wanted)
           then str_drop (len + 1) entry_name
           else entry_name)) ∧
  (∀ n, effective_name theme kind wanted entry_name = Ok n →
     (AStr n ∉ wanted ↔
      scan_entry cfg theme project kind (packages, wanted) entry_name
        = MkM [] (Ok (packages, wanted)))).
Proof.
  split_and!.
  - apply effective_name_no_rule.
  - intros suffix. apply effective_name_namespaced.
  - intros [t ->]. apply effective_name_exact. intros _. right. by exists t.
  - intros a -> Hnone Hstr Hkind.
    destruct (effective_name_scalar_theme a kind wanted entry_name
                Hnone Hstr Hkind) as [Hraise Hok].
    split; [|done]. intros Hrest. split; [by apply Hraise|].
    unfold scan_entry. simpl. by rewrite (Hraise Hrest).
  - intros len. apply effective_name_container_theme.
  - intros n Hn. split.
    + intros Hnot. by eapply scan_entry_unwanted.
    + intros Hscan Hin.
      rewrite (scan_entry_wanted _ _ _ _ _ _ n) in Hscan by done.
      destruct (install_name project); [|discriminate].
      simpl in Hscan. injection Hscan as _ Hw.
      assert (AStr n ∈ wanted ∖ {[AStr n]}) as Hbad by (by rewrite Hw).
      apply elem_of_difference in Hbad as [_ Hbad].
      apply Hbad. by apply elem_of_singleton.
Qed.

(** *** Extra dependencies *)

Lemma is_NotFound_false obj : is_NotFound obj = false ↔ obj ≠ _NotFound.
Proof. destruct obj; simpl; split; done. Qed.

Lemma elem_of_foldl_extras cfg (l : list (string * decl))
    (packages : gset string) x :
  x ∈ foldl (λ (packages : gset string) '(extra_key, extra_pkgs),
               if negb (is_NotFound (_dig cfg extra_key))
               then packages ∪ list_to_set (_strings_decl (Some extra_pkgs))
               else packages) packages l ↔
  x ∈ packages ∨
  ∃ extra_key extra_pkgs, (extra_key, extra_pkgs) ∈ l ∧
    _dig cfg extra_key ≠ _NotFound ∧ x ∈ _strings_decl (Some extra_pkgs).
Proof.
  revert packages.
  induction l as [|[key pkgs] l IH]; intros packages; cbn [foldl].
  - split; [by left|]. intros [?|(? & ? & []%elem_of_nil & _)]; done.
  - rewrite IH. clear IH. split.
    + intros [Hx | (k' & p' & Hin & Hdig & Hp)].
      * destruct (is_NotFound (_dig cfg key)) eqn:Hnf; cbn [negb] in Hx; [by left|].
        apply elem_of_union in Hx as [Hx | Hx]; [by left|]. right.
        exists key, pkgs. split_and!; [left | by apply is_NotFound_false |].
        by apply elem_of_list_to_set in Hx.
      * right. exists k', p'. split_and!; [by right | done..].
    + intros [Hx | (k' & p' & Hin & Hdig & Hp)].
      * left. destruct (is_NotFound (_dig cfg key)); cbn [negb]; [done|].
        apply elem_of_union. by left.
      * apply elem_of_cons in Hin as [[= -> ->] | Hin].
        -- left. apply is_NotFound_false in Hdig. rewrite Hdig. cbn [negb].
           apply elem_of_union. right. by apply elem_of_list_to_set.
        -- right. eauto.
Qed.

Lemma elem_of_add_extras cfg project packages x :
  x ∈ add_extras cfg project packages ↔
  x ∈ packages ∨ active_extra cfg project x.
Proof.
  unfold add_extras, active_extra. rewrite elem_of_foldl_extras.
  split.
  - intros [?|(k & p & Hin & ?)]; [by left|]. right. exists k, p.
    split; [by apply elem_of_map_to_list in Hin | done].
  - intros [?|(k & p & Hin & ?)]; [by left|]. right. exists k, p.
    split; [by apply elem_of_map_to_list | done].
Qed.

(** *** What one step of the scan can do *)

Lemma scan_entry_cases cfg theme project kind st entry_name lg st' :
  scan_entry cfg theme project kind st entry_name = MkM lg (Ok st') →
  ∃ n, effective_name theme kind st.2 entry_name = Ok n ∧
    (((AStr n ∉ st.2) ∧ st' = st ∧ lg = []) ∨
     (AStr n ∈ st.2 ∧ install_name project = None ∧ st' = st ∧
      lg = [LogRecord ERROR (install_error repr_project kind n project)]) ∨
     (AStr n ∈ st.2 ∧ lg = [] ∧ ∃ id, install_name project = Some id ∧
      st' = (add_extras cfg project ({[id]} ∪ st.1), st.2 ∖ {[AStr n]}))).
Proof.
  intros H.
  destruct (effective_name theme kind st.2 entry_name) as [n|e] eqn:Hn.
  - exists n. split; [done|].
    destruct (decide (AStr n ∈ st.2)) as [Hin|Hnot].
    + rewrite (scan_entry_wanted _ _ _ _ _ _ n) in H by done.
      destruct (install_name project) as [id|]; injection H as <- <-.
      * right. right. eauto.
      * right. left. done.
    + rewrite (scan_entry_unwanted _ _ _ _ _ _ n) in H by done.
      injection H as <- <-. by left.
  - unfold scan_entry in H. rewrite Hn in H. discriminate.
Qed.

Lemma grows_refl cfg projects packages : grows cfg projects packages packages.
Proof. split; [done | by left]. Qed.

Lemma grows_trans cfg projects p1 p2 p3 :
  grows cfg projects p1 p2 → grows cfg projects p2 p3 → grows cfg projects p1 p3.
Proof.
  intros [Ha Hb] [Hc Hd]. split; [by etrans|].
  intros x Hx. destruct (Hd x Hx) as [Hx2|?]; [|by right]. by apply Hb.
Qed.

Lemma grows_mono cfg ps1 ps2 p1 p2 :
  ps1 ⊆ ps2 → grows cfg ps1 p1 p2 → grows cfg ps2 p1 p2.
Proof.
  intros Hsub [Ha Hb]. split; [done|].
  intros x Hx. destruct (Hb x Hx) as [?|(p & Hp & ?)]; [by left|].
  right. exists p. split; [by apply Hsub | done].
Qed.

Lemma shrinks_refl wps : shrinks wps wps.
Proof. unfold shrinks. induction wps; constructor; done. Qed.

Lemma shrinks_trans w1 w2 w3 : shrinks w1 w2 → shrinks w2 w3 → shrinks w1 w3.
Proof.
  unfold shrinks. intros H12. revert w3.
  induction H12 as [|a b l1 l2 [Hk Hs] _ IH]; intros w3 H23.
  - by inversion H23.
  - inversion H23 as [|? c ? l3 [Hk' Hs'] Hrest]; subst.
    constructor; [|by apply IH]. split; [congruence | by etrans].
Qed.

Lemma scan_entry_inv cfg theme project kind st entry_name lg st' :
  scan_entry cfg theme project kind st entry_name = MkM lg (Ok st') →
  grows cfg [project] st.1 st'.1 ∧ st'.2 ⊆ st.2.
Proof.
  intros (n & _ & [(_ & -> & _) | [(_ & _ & -> & _) | (Hin & _ & id & Hid & ->)]])
    %scan_entry_cases; [split; [apply grows_refl | done]..|].
  simpl. split; [split|].
  - intros x Hx. apply elem_of_add_extras. left. apply elem_of_union. by right.
  - intros x [[Hx|Hx]%elem_of_union | Hx]%elem_of_add_extras.
    + apply elem_of_singleton in Hx as ->. right. exists project.
      split; [left | by left].
    + by left.
    + right. exists project. split; [left | by right].
  - apply subseteq_difference_l. done.
Qed.

Lemma scan_kind_inv cfg theme project kind st lg st' :
  scan_kind cfg theme project kind st = MkM lg (Ok st') →
  grows cfg [project] st.1 st'.1 ∧ st'.2 ⊆ st.2.
Proof.
  unfold scan_kind.
  apply (foldM_Ok_ind
           (λ s s', grows cfg [project] s.1 s'.1 ∧ s'.2 ⊆ s.2)).
  - intros s. split; [apply grows_refl | done].
  - intros s1 s2 s3 [? ?] [? ?]. split; [by eapply grows_trans | by etrans].
  - intros s x lg0 s0 _. apply scan_entry_inv.
Qed.

Lemma scan_kinds_inv cfg theme project packages wps lg st' :
  scan_kinds cfg theme project packages wps = MkM lg (Ok st') →
  grows cfg [project] packages st'.1 ∧ shrinks wps st'.2.
Proof.
  revert packages lg st'. induction wps as [|[kind wanted] wps IH];
    intros packages lg st' H; simpl in H.
  - apply ret_Ok_inv in H as [<- _]. split; [apply grows_refl | constructor].
  - inv_M H. apply ret_Ok_inv in H as [<- _]. simpl.
    apply scan_kind_inv in Hm as [Hg Hs]. apply IH in Hm0 as [Hg' Hs'].
    split; [by eapply grows_trans|]. constructor; [done | exact Hs'].
Qed.

Lemma scan_inv cfg theme projects st lg st' :
  scan cfg theme projects st = MkM lg (Ok st') →
  grows cfg projects st.1 st'.1 ∧ shrinks st.2 st'.2.
Proof.
  unfold scan.
  apply (foldM_Ok_ind
           (λ s s', grows cfg projects s.1 s'.1 ∧ shrinks s.2 s'.2)).
  - intros s. split; [apply grows_refl | apply shrinks_refl].
  - intros s1 s2 s3 [? ?] [? ?]. split; [by eapply grows_trans | by eapply shrinks_trans].
  - intros s p lg0 s0 Hp [Hg Hs]%scan_kinds_inv. split; [|done].
    eapply grows_mono; [|exact Hg]. intros q ->%list_elem_of_singleton. done.
Qed.

(** *** A project that cannot be installed *)

Lemma scan_kind_no_id cfg theme project kind st lg st' :
  install_name project = None →
  scan_kind cfg theme project kind st = MkM lg (Ok st') → st' = st.
Proof.
  intros Hid. unfold scan_kind.
  apply (foldM_Ok_ind (λ s s', s' = s)); [done | congruence |].
  intros s x lg0 s0 _
    (n & _ & [(_ & -> & _) | [(_ & _ & -> & _) | (_ & _ & id & Hid' & _)]])
    %scan_entry_cases; [done..|congruence].
Qed.

Lemma scan_kinds_no_id cfg theme project packages wps lg st' :
  install_name project = None →
  scan_kinds cfg theme project packages wps = MkM lg (Ok st') →
  st' = (packages, wps).
Proof.
  intros Hid. revert packages lg st'.
  induction wps as [|[kind wanted] wps IH]; intros packages lg st' H; simpl in H.
  - by apply ret_Ok_inv in H as [<- _].
  - inv_M H. apply ret_Ok_inv in H as [<- _].
    apply scan_kind_no_id in Hm as ->; [|done].
    apply IH in Hm0 as ->. done.
Qed.

(** C7. When a declared name matches a wanted capability, the project is
    installed under its [pypi_id] when it has one, else under
    "git+https://github.com/" followed by its [github_id] when it has one.
    When it has neither, one error is logged and the match is skipped:
    the package set and the wanted set are left as they were, so the name
    stays wanted for later projects and for the diagnostics, and the scan
    goes on; a whole project without either field changes nothing. *)
Theorem install_identifier_resolution (cfg theme : value) (project : Project)
    (kind : _PluginKind) (st : gset string * gset atom)
    (entry_name n : string) :
  effective_name theme kind st.2 entry_name = Ok n →
  AStr n ∈ st.2 →
  (∀ id, pypi_id project = Some id →
     scan_entry cfg theme project kind st entry_name =
       MkM [] (Ok (add_extras cfg project ({[id]} ∪ st.1), st.2 ∖ {[AStr n]}))) ∧
  (∀ id, pypi_id project = None → github_id project = Some id →
     scan_entry cfg theme project kind st entry_name =
       MkM [] (Ok (add_extras cfg project
                     ({["git+https://github.com/" +:+ id]} ∪ st.1),
                   st.2 ∖ {[AStr n]}))) ∧
  (pypi_id project = None → github_id project = None →
     scan_entry cfg theme project kind st entry_name =
       MkM [LogRecord ERROR (install_error repr_project kind n project)] (Ok st) ∧
     ∀ packages wanted_plugins lg st',
       scan_kinds cfg theme project packages wanted_plugins = MkM lg (Ok st') →
       st' = (packages, wanted_plugins)).
Proof.
  intros Hn Hin. split_and!.
  - intros id Hpypi. rewrite (scan_entry_wanted _ _ _ _ _ _ n) by done.
    unfold install_name. by rewrite Hpypi.
  - intros id Hpypi Hgh. rewrite (scan_entry_wanted _ _ _ _ _ _ n) by done.
    unfold install_name. by rewrite Hpypi, Hgh.
  - intros Hpypi Hgh.
    assert (install_name project = None) as Hid.
    { unfold install_name. by rewrite Hpypi, Hgh. }
    split.
    + rewrite (scan_entry_wanted _ _ _ _ _ _ n) by done. by rewrite Hid.
    + intros packages wps lg st'. by apply scan_kinds_no_id.
Qed.

(** *** A project that matches nothing *)

Lemma scan_entry_same_wanted cfg theme project kind st entry_name lg st' :
  scan_entry cfg theme project kind st entry_name = MkM lg (Ok st') →
  st'.2 = st.2 → st' = st.
Proof.
  intros (n & _ & [(_ & -> & _) | [(_ & _ & -> & _) | (Hin & _ & id & _ & ->)]])
    %scan_entry_cases; [done..|].
  simpl. intros Heq. rewrite <- Heq in Hin.
  apply elem_of_difference in Hin as [_ Hin]. exfalso. apply Hin.
  by apply elem_of_singleton.
Qed.

Lemma scan_kind_same_wanted cfg theme project kind st lg st' :
  scan_kind cfg theme project kind st = MkM lg (Ok st') →
  st'.2 = st.2 → st' = st.
Proof.
  unfold scan_kind.
  generalize (_strings_decl (project_get project (projects_key kind))) as l.
  intros l. revert st lg. induction l as [|e l IH]; intros st lg H Heq; simpl in H.
  - by apply ret_Ok_inv in H as [<- _].
  - inv_M H.
    pose proof (scan_entry_inv _ _ _ _ _ _ _ _ Hm) as [_ Hs1].
    pose proof (scan_kind_inv cfg theme project kind a lg1 st') as Hk.
    unfold scan_kind in Hk.
    assert (st'.2 ⊆ a.2) as Hs2.
    { eapply (foldM_Ok_ind (λ s s', s'.2 ⊆ s.2)); [done | | | exact H].
      - intros ? ? ? ? ?. by etrans.
      - intros s x lg' s' _ Hx. by apply scan_entry_inv in Hx as [_ ?]. }
    assert (a.2 = st.2) as Ha.
    { apply (anti_symm (⊆)); [done|]. by rewrite <- Heq. }
    apply scan_entry_same_wanted in Hm as ->; [|done].
    apply (IH _ _ H). congruence.
Qed.

Lemma scan_kinds_same_wanted cfg theme project packages wps lg st' :
  scan_kinds cfg theme project packages wps = MkM lg (Ok st') →
  st'.2 = wps → st'.1 = packages.
Proof.
  revert packages lg st'. induction wps as [|[kind wanted] wps IH];
    intros packages lg st' H Heq; simpl in H.
  - by apply ret_Ok_inv in H as [<- _].
  - inv_M H. apply ret_Ok_inv in H as [<- _]. simpl in *.
    injection Heq as Hw Hrest.
    apply scan_kind_same_wanted in Hm; [|done]. subst a. simpl in *.
    by apply IH in Hm0.
Qed.


(** *** A project that takes a name out of a wanted set *)

Lemma scan_entry_changed cfg theme project kind st entry_name lg st' id :
  install_name project = Some id →
  scan_entry cfg theme project kind st entry_name = MkM lg (Ok st') →
  st'.2 ≠ st.2 → id ∈ st'.1.
Proof.
  intros Hid
    (n & _ & [(_ & -> & _) | [(_ & _ & -> & _) | (Hin & _ & id' & Hid' & ->)]])
    %scan_entry_cases Hne; [done..|].
  simpl. apply elem_of_add_extras. left. apply elem_of_union. left.
  apply elem_of_singleton. congruence.
Qed.

Lemma scan_kind_changed cfg theme project kind st lg st' id :
  install_name project = Some id →
  scan_kind cfg theme project kind st = MkM lg (Ok st') →
  st'.2 ≠ st.2 → id ∈ st'.1.
Proof.
  intros Hid. unfold scan_kind.
  generalize (_strings_decl (project_get project (projects_key kind))) as l.
  intros l. revert st lg. induction l as [|e l IH]; intros st lg H Hne; simpl in H.
  - by apply ret_Ok_inv in H as [<- _].
  - apply bind_Ok_inv in H as (s1 & l1 & l2 & H1 & H2 & _).
    destruct (decide (s1.2 = st.2)) as [Heq|Hne1].
    + apply scan_entry_same_wanted in H1 as ->; [|done]. by eapply IH.
    + eapply scan_entry_changed in H1; [|done..].
      assert (s1.1 ⊆ st'.1) as Hsub; [|by apply Hsub].
      eapply (foldM_Ok_ind (λ s s', s.1 ⊆ s'.1)); [done | | | exact H2].
      * intros ? ? ? ? ?. by etrans.
      * intros s x lg' s' _ Hx. by apply scan_entry_inv in Hx as [[? _] _].
Qed.

Lemma scan_kinds_changed cfg theme project packages wps lg st' id :
  install_name project = Some id →
  scan_kinds cfg theme project packages wps = MkM lg (Ok st') →
  st'.2 ≠ wps → id ∈ st'.1.
Proof.
  intros Hid. revert packages lg st'.
  induction wps as [|[kind wanted] wps IH]; intros packages lg st' H Hne; simpl in H.
  - by apply ret_Ok_inv in H as [<- _].
  - apply bind_Ok_inv in H as (s1 & l1 & l2 & H1 & H & _).
    apply bind_Ok_inv in H as (s2 & l3 & l4 & H2 & [<- _]%ret_Ok_inv & _).
    simpl in *.
    destruct (decide (s1.2 = wanted)) as [Heq|Hne1].
    + eapply IH; [exact H2|]. intros Heq2. apply Hne. by rewrite Heq, Heq2.
    + eapply scan_kind_changed in H1; [|done..].
      apply scan_kinds_inv in H2 as [[Hsub _] _]. by apply Hsub.
Qed.

End matcher.

(** ** The whole resolution *)

Section resolution.
Variable _entry_points : string → gmap string EntryPoint.
Variable repr : value → string.
Variable repr_project : Project → string.
Variable repr_config_file : string.

Local Abbreviation get_deps :=
  (get_deps _entry_points repr repr_project repr_config_file).
Local Abbreviation scan := (scan repr repr_project).
Local Abbreviation report := (report _entry_points).
Local Abbreviation diagnose := (diagnose _entry_points).
Local Abbreviation registered := (registered _entry_points).
Local Abbreviation base_packages := (base_packages repr_config_file).

Lemma debug_wanted_logged wanted_plugins lg u :
  debug_wanted wanted_plugins = MkM lg (Ok u) → lg = [].
Proof.
  apply foldM_silent. intros [] kw l1 [] H.
  apply bind_Ok_inv in H as (x & l3 & l4 & [_ ->]%lift_Ok_inv
                               & [_ ->]%ret_Ok_inv & ->).
  done.
Qed.

(** What a call of [get_deps] that returns went through. *)
Lemma get_deps_Ok_inv projects d lg r :
  get_deps projects (VDict d) = MkM lg (Ok r) →
  ∃ lg0 packages0 wanted0 lg1 st lg2,
    base_packages (VDict d) d = MkM lg0 (Ok packages0) ∧
    wanted_sets (VDict d) (config_theme (VDict d) d) = Ok wanted0 ∧
    scan (VDict d) (config_theme (VDict d) d) projects (packages0, wanted0)
      = MkM lg1 (Ok st) ∧
    report st.2 = MkM lg2 (Ok tt) ∧
    lg = lg0 ++ lg1 ++ lg2 ∧
    r = merge_sort String.le (elements st.1).
Proof.
  intros H. unfold get_deps in H.
  apply bind_Ok_inv in H as (pk0 & lg0 & lg0' & Hbase & H & ->).
  apply bind_Ok_inv in H as (w0 & l1 & l1' & [Hw ->]%lift_Ok_inv & H & ->).
  apply bind_Ok_inv in H as (u & l2 & l2' & ->%debug_wanted_logged & H & ->).
  apply bind_Ok_inv in H as (st & lg1 & l3' & Hscan & H & ->).
  apply bind_Ok_inv in H as ([] & lg2 & l4' & Hrep & [<- ->]%ret_Ok_inv & ->).
  exists lg0, pk0, w0, lg1, st, lg2. split_and!; try done.
  simpl. by rewrite app_nil_r.
Qed.

(** *** C8: the result *)

(** C8. Whenever [get_deps] returns, what it returns is sorted in the
    order of strings and has no element twice, whatever the order of the
    catalog and of the entries of the configuration. *)
Theorem get_deps_sorted_distinct (projects : list Project) (cfg : value)
    (lg : list log_record) (r : list string) :
  get_deps projects cfg = MkM lg (Ok r) →
  StronglySorted String.le r ∧ NoDup r.
Proof.
  destruct cfg as [a|l|d]; [discriminate..|].
  intros (_ & _ & _ & _ & st & _ & _ & _ & _ & _ & _ & ->)%get_deps_Ok_inv.
  split.
  - apply StronglySorted_merge_sort; apply _.
  - rewrite merge_sort_Permutation. apply NoDup_elements.
Qed.

(** The result lists exactly the final package set. *)
Lemma elem_of_sorted (packages : gset string) x :
  x ∈ merge_sort String.le (elements packages) ↔ x ∈ packages.
Proof. by rewrite merge_sort_Permutation, elem_of_elements. Qed.

(** *** C1: the package of MkDocs itself *)

Lemma has_marker_forallb d :
  forallb (λ c, bool_decide (d !! c = None)) markers = false ↔ has_marker d.
Proof.
  unfold has_marker. split.
  - intros H. apply not_true_iff_false in H.
    rewrite forallb_forall in H.
    destruct (decide (Exists (λ c, d !! c ≠ None) markers)) as [Hex|Hnex].
    + apply Exists_exists in Hex as (c & Hc & Hd). eauto.
    + exfalso. apply H. intros c Hc. apply bool_decide_eq_true.
      apply list_elem_of_In in Hc.
      destruct (d !! c) eqn:E; [|done]. exfalso. apply Hnex.
      apply Exists_exists. exists c. split; [done | congruence].
  - intros (c & Hc & Hd). apply not_true_iff_false. intros H.
    rewrite forallb_forall in H. apply list_elem_of_In in Hc.
    specialize (H c Hc). by apply bool_decide_eq_true in H.
Qed.

Lemma locale_test cfg :
  negb (is_NotFound (_dig cfg "theme.locale")
        || eq_str (_dig cfg "theme.locale") "en") = true ↔
  locale_selects_i18n cfg.
Proof.
  unfold locale_selects_i18n.
  destruct (_dig cfg "theme.locale") as [v|]; simpl.
  - split.
    + intros H. exists v. split; [done|]. intros ->. by vm_compute in H.
    + intros (v' & [= <-] & Hne). apply negb_true_iff.
      destruct v as [[| | |s]|l|d']; try done.
      apply String.eqb_neq. congruence.
  - split; [done | intros (? & ? & _); done].
Qed.

Lemma base_packages_marked cfg d :
  has_marker d →
  (locale_selects_i18n cfg → base_packages cfg d = MkM [] (Ok {["mkdocs[i18n]"]})) ∧
  (¬ locale_selects_i18n cfg → base_packages cfg d = MkM [] (Ok {["mkdocs"]})).
Proof.
  intros Hm%has_marker_forallb. unfold base_packages. rewrite Hm.
  split; intros Hl.
  - apply locale_test in Hl. by rewrite Hl.
  - rewrite <- locale_test in Hl. apply not_true_is_false in Hl. by rewrite Hl.
Qed.

(** C1 (as the code has it). For a configuration with a marker key on which
    [get_deps] returns, the result contains "mkdocs[i18n]" when
    [theme.locale] is found (with any value, [None] included) and is not
    "en", and "mkdocs" otherwise.  The other of the two identifiers is in
    the result only when a project of the catalog provides it, as its
    install identifier or as an extra dependency: for a catalog that
    provides neither, exactly one of the two is in the result. *)
Theorem get_deps_mkdocs_package (projects : list Project)
    (d : gmap string value) (lg : list log_record) (r : list string) :
  get_deps projects (VDict d) = MkM lg (Ok r) →
  has_marker d →
  (locale_selects_i18n (VDict d) → "mkdocs[i18n]" ∈ r) ∧
  (¬ locale_selects_i18n (VDict d) → "mkdocs" ∈ r) ∧
  ((∀ project, project ∈ projects →
      ¬ provides (VDict d) project "mkdocs[i18n]") →
   "mkdocs[i18n]" ∈ r → locale_selects_i18n (VDict d)) ∧
  ((∀ project, project ∈ projects →
      ¬ provides (VDict d) project "mkdocs") →
   "mkdocs" ∈ r → ¬ locale_selects_i18n (VDict d)).
Proof.
  intros (lg0 & pk0 & w0 & lg1 & st & lg2 & Hbase & _ & Hscan & _ & _ & ->)
    %get_deps_Ok_inv Hm.
  apply scan_inv in Hscan as [[Hsub Hfrom] _]. simpl in Hsub, Hfrom.
  destruct (base_packages_marked (VDict d) d Hm) as [Hyes Hno].
  split_and!.
  - intros Hl. rewrite (Hyes Hl) in Hbase. injection Hbase as _ <-.
    apply elem_of_sorted, Hsub. by apply elem_of_singleton.
  - intros Hl. rewrite (Hno Hl) in Hbase. injection Hbase as _ <-.
    apply elem_of_sorted, Hsub. by apply elem_of_singleton.
  - intros Hcat [Hx | (p & Hp & Hprov)]%elem_of_sorted%Hfrom;
      [|by destruct (Hcat p Hp)].
    destruct (decide (is_NotFound (_dig (VDict d) "theme.locale")
                      || eq_str (_dig (VDict d) "theme.locale") "en" = false))
      as [Htest|Htest].
    + apply locale_test. by rewrite Htest.
    + assert (¬ locale_selects_i18n (VDict d)) as Hl.
      { rewrite <- locale_test. by destruct (_ || _). }
      rewrite (Hno Hl) in Hbase. injection Hbase as _ <-.
      by apply elem_of_singleton in Hx.
  - intros Hcat [Hx | (p & Hp & Hprov)]%elem_of_sorted%Hfrom Hl;
      [|by destruct (Hcat p Hp)].
    rewrite (Hyes Hl) in Hbase. injection Hbase as _ <-.
    by apply elem_of_singleton in Hx.
Qed.

(** *** C10: a scalar where names are expected *)

Lemma py_hash_raises v e : py_hash v = Raise e → e = TypeError.
Proof. destruct v; simpl; congruence. Qed.

Lemma py_set_raises l e : py_set l = Raise e → e = TypeError.
Proof.
  induction l as [|v l IH]; simpl; [done|].
  destruct (py_hash v) eqn:Hv; simpl.
  - destruct (py_set l); simpl; [done|]. intros [= <-]. by apply IH.
  - intros [= <-]. by apply py_hash_raises in Hv.
Qed.

Lemma _strings_raises obj e : _strings obj = Raise e → e = TypeError.
Proof. destruct obj as [[[| | |]| |]|]; simpl; congruence. Qed.

Lemma names_raises obj e :
  (l ← _strings obj; py_set l) = Raise e → e = TypeError.
Proof.
  destruct (_strings obj) eqn:Hs; simpl.
  - apply py_set_raises.
  - intros [= <-]. by apply _strings_raises in Hs.
Qed.

Lemma _strings_scalar a :
  (∀ s, a ≠ AStr s) → _strings (Some (VAtom a)) = Raise TypeError.
Proof. intros Ha. destruct a; simpl; try done. by destruct (Ha s). Qed.

Lemma wanted_sets_scalar d theme key a :
  key = "plugins" ∨ key = "markdown_extensions" →
  d !! key = Some (VAtom a) → (∀ s, a ≠ AStr s) →
  _dig (VDict d) key = Some (VAtom a) ∧
  wanted_sets (VDict d) theme = Raise TypeError.
Proof.
  intros Hkey Hd Ha.
  assert (_dig (VDict d) key = Some (VAtom a)) as Hdig.
  { rewrite _dig_segment; [by rewrite Hd | by destruct Hkey as [-> | ->]]. }
  split; [done|]. unfold wanted_sets.
  destruct (if truthy theme then _ else _) as [themes|e] eqn:Hthemes; simpl.
  - destruct Hkey as [-> | ->].
    + rewrite Hdig, (_strings_scalar a Ha). done.
    + destruct (l ← _strings (_dig (VDict d) "plugins"); py_set l) eqn:Hp.
      * simpl. rewrite Hdig, (_strings_scalar a Ha). done.
      * simpl. by apply names_raises in Hp as ->.
  - destruct (truthy theme); [|done].
    destruct (py_hash theme) eqn:Hh; [done|]. simpl in Hthemes.
    apply py_hash_raises in Hh. congruence.
Qed.

(** C10. When the value of [plugins] or of [markdown_extensions] is a
    scalar that is not a string ([None], a number, a boolean), the coercion
    of that value to a tuple raises [TypeError], and [get_deps] raises
    [TypeError] without having logged anything: the request set is not
    taken as empty and no diagnostic is written. *)
Theorem get_deps_scalar_names_raise (projects : list Project)
    (d : gmap string value) (key : string) (a : atom) :
  key = "plugins" ∨ key = "markdown_extensions" →
  d !! key = Some (VAtom a) →
  (∀ s, a ≠ AStr s) →
  _strings (_dig (VDict d) key) = Raise TypeError ∧
  get_deps projects (VDict d) = MkM [] (Raise TypeError).
Proof.
  intros Hkey Hd Ha.
  destruct (wanted_sets_scalar d (config_theme (VDict d) d) key a Hkey Hd Ha)
    as [Hdig Hw].
  split; [rewrite Hdig; by apply _strings_scalar|].
  assert (has_marker d) as Hm.
  { exists key. split; [|congruence].
    destruct Hkey as [-> | ->]; unfold markers; set_solver. }
  unfold get_deps.
  destruct (base_packages_marked (VDict d) d Hm) as [Hyes Hno].
  destruct (decide (is_NotFound (_dig (VDict d) "theme.locale")
                    || eq_str (_dig (VDict d) "theme.locale") "en" = false))
    as [Htest|Htest].
  - rewrite Hyes by (apply locale_test; by rewrite Htest).
    rewrite bind_Ok. simpl. by rewrite Hw.
  - rewrite Hno by (rewrite <- locale_test; by destruct (_ || _)).
    rewrite bind_Ok. simpl. by rewrite Hw.
Qed.

(** *** C9: the diagnostics for the names left over *)

Lemma mapM_atom_str l ss : mapM atom_str l = Some ss → l = AStr <$> ss.
Proof.
  intros H%mapM_Some. induction H as [|a s l ss Ha _ IH]; [done|].
  destruct a; try done. injection Ha as ->. by rewrite fmap_cons, IH.
Qed.

Lemma Sorted_on {A} (R R' : relation A) (P : A → Prop) l :
  (∀ x y, P x → P y → R x y → R' x y) →
  Forall P l → Sorted R l → Sorted R' l.
Proof.
  intros HR HP Hs. induction Hs as [|x l _ IH Hhd]; [constructor|].
  apply Forall_cons in HP as [Hx Hl]. constructor; [by apply IH|].
  destruct Hhd as [|y l' Hxy]; constructor.
  apply Forall_cons in Hl as [Hy _]. by apply HR.
Qed.

Global Instance num_le_total : Total num_le.
Proof. intros a b. unfold num_le. lia. Qed.

(** [sorted] returns the names it was given, in order. *)
Lemma py_sorted_Ok l names :
  py_sorted l = Ok names → names ≡ₚ l ∧ Sorted atom_le names.
Proof.
  unfold py_sorted.
  destruct l as [|a [|b l]].
  { intros [= <-]. split; [done | constructor]. }
  { intros [= <-]. split; [done | repeat constructor]. }
  destruct (mapM atom_str (a :: b :: l)) as [ss|] eqn:Hstr.
  - intros [= <-]. apply mapM_atom_str in Hstr as ->. split.
    + by rewrite merge_sort_Permutation.
    + apply (Sorted_fmap _ String.le); [done|].
      apply Sorted_merge_sort; apply _.
  - destruct (mapM atom_num (a :: b :: l)) as [ns|] eqn:Hnum; [|done].
    intros [= <-]. split; [apply merge_sort_Permutation|].
    apply (Sorted_on num_le atom_le (λ x, is_Some (atom_num x))).
    + intros x y [nx Hx] [ny Hy]. unfold num_le, atom_le.
      rewrite Hx, Hy. simpl. by destruct x, y.
    + rewrite merge_sort_Permutation.
      apply mapM_Some in Hnum.
      eapply Forall2_Forall_l; [exact Hnum|].
      apply Forall_true. intros ? ? ?. eauto.
    + apply Sorted_merge_sort; apply _.
Qed.

Lemma diagnose_outcome kind entry_name : outcome (diagnose kind entry_name) = Ok tt.
Proof.
  unfold diagnose.
  destruct (bool_decide _); [|done].
  by destruct (match entry_name with AStr _ => _ | _ => _ end).
Qed.

Lemma diagnose_loop kind names :
  foldM (λ _ entry_name, diagnose kind entry_name) tt names =
    MkM (names ≫= λ entry_name, logged (diagnose kind entry_name)) (Ok tt).
Proof.
  induction names as [|n names IH]; [done|]. simpl.
  rewrite (M_eta (diagnose kind n)), diagnose_outcome, bind_Ok, IH. done.
Qed.

Lemma report_Ok_inv wanted_plugins lg :
  report wanted_plugins = MkM lg (Ok tt) →
  ∃ sorted_names,
    Forall2 (λ kw names, py_sorted (elements kw.2) = Ok names)
            wanted_plugins sorted_names ∧
    lg = concat (zip_with
                   (λ kw names,
                      names ≫= λ entry_name, logged (diagnose kw.1 entry_name))
                   wanted_plugins sorted_names).
Proof.
  unfold report.
  revert lg. induction wanted_plugins as [|kw wps IH]; intros lg H; simpl in H.
  - apply ret_Ok_inv in H as [_ ->]. exists []. split; [constructor | done].
  - apply bind_Ok_inv in H as ([] & l1 & l2 & H1 & H2 & ->).
    apply bind_Ok_inv in H1 as (names & l3 & l4 & [Hs ->]%lift_Ok_inv & H1 & ->).
    rewrite diagnose_loop in H1. injection H1 as <-.
    apply IH in H2 as (nss & Hall & ->).
    exists (names :: nss). split; [by constructor | done].
Qed.

Lemma app_empty_r s : s +:+ "" = s.
Proof. induction s as [|a s IH]; [done|]. by rewrite app_cons, IH. Qed.

Lemma diagnose_unregistered kind entry_name :
  (∀ ep, ¬ registered kind entry_name ep) →
  diagnose kind entry_name
    = MkM [LogRecord WARNING (not_provided kind entry_name)] (Ok tt).
Proof.
  intros Hno. unfold diagnose.
  assert (match entry_name with
          | AStr s => _entry_points (entry_points_key kind) !! s
          | _ => None
          end = None) as ->; [|done].
  destruct entry_name as [| | |s]; try done.
  destruct (_ !! s) as [ep|] eqn:E; [|done].
  destruct (Hno ep). by exists s.
Qed.

Lemma diagnose_registered kind entry_name ep :
  registered kind entry_name ep →
  diagnose kind entry_name =
    match dist ep with
    | None =>
        MkM [LogRecord INFO (not_provided kind entry_name
                               +:+ " but is installed locally")] (Ok tt)
    | Some owner =>
        if bool_decide (name owner = "mkdocs" ∨ name owner = "Markdown")
        then MkM [] (Ok tt)
        else MkM [LogRecord INFO
                    (not_provided kind entry_name
                       +:+ " but is installed locally"
                       +:+ (if String.eqb (name owner) "" then ""
                            else " from '" +:+ name owner +:+ "'"))] (Ok tt)
    end.
Proof.
  intros (s & -> & Hep). unfold diagnose. rewrite Hep.
  destruct (dist ep) as [owner|].
  - destruct (decide (name owner = "mkdocs" ∨ name owner = "Markdown")) as [Hb|Hb].
    + rewrite (bool_decide_eq_true_2 _ Hb).
      rewrite bool_decide_eq_false_2; [done|].
      intros Hnot. apply Hnot. destruct Hb as [-> | ->]; set_solver.
    + rewrite (bool_decide_eq_false_2 _ Hb).
      rewrite bool_decide_eq_true_2; [done|].
      intros [[= ?] | [[= ?] | []%elem_of_nil]%elem_of_cons]%elem_of_cons; tauto.
  - rewrite bool_decide_eq_true_2.
    + unfold not_provided. by rewrite app_empty_r.
    + intros [[= ?] | [[= ?] | []%elem_of_nil]%elem_of_cons]%elem_of_cons.
Qed.

(** C9. After the scan, the names left in each wanted set are taken kind by
    kind and in sorted order, and each gets at most one record.  With
    <Kind> one of "Theme", "Plugin", "Extension" and the text
    "<Kind> '<name>' is not provided by any registered project":
    a name without local registration gets a WARNING with that text; a name
    registered locally gets an INFO with that text followed by
    " but is installed locally", and by the name of the owning distribution
    when there is one with a non-empty name, unless the owning
    distribution is "mkdocs" or "Markdown", in which case nothing is
    logged. *)
Theorem local_registry_fallback :
  (capitalize (kind_str theme_kind) = "Theme" ∧
   capitalize (kind_str plugin_kind) = "Plugin" ∧
   capitalize (kind_str extension_kind) = "Extension") ∧
  (∀ kind entry_name,
     ((∀ ep, ¬ registered kind entry_name ep) →
        diagnose kind entry_name
          = MkM [LogRecord WARNING (not_provided kind entry_name)] (Ok tt)) ∧
     (∀ ep, registered kind entry_name ep → dist ep = None →
        diagnose kind entry_name
          = MkM [LogRecord INFO (not_provided kind entry_name
                                   +:+ " but is installed locally")] (Ok tt)) ∧
     (∀ ep owner, registered kind entry_name ep → dist ep = Some owner →
        name owner ≠ "mkdocs" → name owner ≠ "Markdown" →
        diagnose kind entry_name
          = MkM [LogRecord INFO
                   (not_provided kind entry_name
                      +:+ " but is installed locally"
                      +:+ (if String.eqb (name owner) "" then ""
                           else " from '" +:+ name owner +:+ "'"))] (Ok tt)) ∧
     (∀ ep owner, registered kind entry_name ep → dist ep = Some owner →
        name owner = "mkdocs" ∨ name owner = "Markdown" →
        diagnose kind entry_name = MkM [] (Ok tt))) ∧
  (∀ wanted_plugins lg,
     report wanted_plugins = MkM lg (Ok tt) →
     ∃ sorted_names,
       Forall2 (λ kw names, names ≡ₚ elements kw.2 ∧ Sorted atom_le names)
               wanted_plugins sorted_names ∧
       lg = concat (zip_with
                      (λ kw names,
                         names ≫= λ entry_name,
                           logged (diagnose kw.1 entry_name))
                      wanted_plugins sorted_names)).
Proof.
  split_and!.
  - reflexivity.
  - reflexivity.
  - reflexivity.
  - intros kind entry_name. split_and!.
    + apply diagnose_unregistered.
    + intros ep Hreg Hdist.
      by rewrite (diagnose_registered _ _ _ Hreg), Hdist.
    + intros ep owner Hreg Hdist Hm Hmd.
      rewrite (diagnose_registered _ _ _ Hreg), Hdist.
      rewrite bool_decide_eq_false_2; [done | tauto].
    + intros ep owner Hreg Hdist Hb.
      rewrite (diagnose_registered _ _ _ Hreg), Hdist.
      by rewrite bool_decide_eq_true_2.
  - intros wps lg (nss & Hall & ->)%report_Ok_inv.
    exists nss. split; [|done].
    eapply Forall2_impl; [exact Hall|].
    intros kw names. apply py_sorted_Ok.
Qed.

(** *** When [get_deps] returns *)



Lemma effective_name_returns theme kind wanted entry_name :
  theme = VNone ∨ (∃ t, theme = VStr t) →
  ∃ n, effective_name repr theme kind wanted entry_name = Ok n.
Proof.
  intros Htheme. unfold effective_name.
  destruct Htheme as [-> | [t ->]]; simpl.
  - rewrite andb_false_r. simpl. eauto.
  - destruct (_ && _); [|eauto]. destruct (_ && _); eauto.
Qed.






Lemma py_set_strs (ks : list string) :
  py_set ((λ k, VStr k) <$> ks) = Ok (list_to_set (AStr <$> ks)).
Proof.
  induction ks as [|k ks IH]; [done|].
  rewrite !fmap_cons. cbn [py_set py_hash]. rewrite IH. done.
Qed.

Lemma all_str_list_to_set (ks : list string) : all_str (list_to_set (AStr <$> ks)).
Proof.
  intros a (k & -> & _)%elem_of_list_to_set%list_elem_of_fmap. eauto.
Qed.

Lemma names_of_mapping (m : gmap string value) :
  (l ← _strings (Some (VDict m)); py_set l)
    = Ok (list_to_set (AStr <$> (fst <$> map_to_list m))).
Proof.
  rewrite <- py_set_strs. cbn [_strings mbind result_bind].
  by rewrite <- list_fmap_compose.
Qed.

(** The names requested under [key], when its value is not a scalar other
    than a string. *)
Lemma names_returns d key :
  partition "." key = (key, "") →
  (∀ a, d !! key = Some (VAtom a) → ∃ s, a = AStr s) →
  ∃ names, (l ← _strings (_dig (VDict d) key); py_set l) = Ok names ∧
           all_str names.
Proof.
  intros Hkey Hscalar. rewrite (_dig_segment d key Hkey).
  destruct (d !! key) as [[a|l|d']|]; cbn [fmap option_fmap option_map flat].
  - destruct (Hscalar a eq_refl) as [s ->].
    exists ({[AStr s]} ∪ ∅). split; [done|].
    intros a [->%elem_of_singleton | []%elem_of_empty]%elem_of_union. eauto.
  - rewrite names_of_mapping. eexists. split; [done|]. apply all_str_list_to_set.
  - rewrite names_of_mapping. eexists. split; [done|]. apply all_str_list_to_set.
  - exists ∅. split; [done|]. intros a []%elem_of_empty.
Qed.



End resolution.

(** * Worked examples *)

(** [plugins: [tags]] with [theme: material]: the entry "material/tags" of
    the theme comes first in the catalog and satisfies the request. *)
Example ex_theme_precedence :
  ex_get_deps ex_catalog ex_cfg_theme_precedence
    = MkM [] (Ok ["mkdocs"; "mkdocs-material"]).
Proof. vm_compute. reflexivity. Qed.

(** Without a theme the entry of the plain name matches. *)
Example ex_no_theme :
  ex_get_deps ex_catalog
    (VDict {[ "site_name" := VStr "Test"; "plugins" := VList [VStr "tags"] ]})
    = MkM [] (Ok ["mkdocs"; "mkdocs-plugin-tags"]).
Proof. vm_compute. reflexivity. Qed.

(** Unknown names, with and without local registration, and a project that
    cannot be installed: it is reported and its name stays wanted. *)
Example ex_unknown :
  ex_get_deps ex_catalog ex_cfg_unknown =
    MkM [ LogRecord ERROR "Can't find how to install plugin 'orphan' although it was identified as <project>";
          LogRecord WARNING "Theme 'qndyakplooyh' is not provided by any registered project";
          LogRecord INFO "Plugin 'local' is not provided by any registered project but is installed locally from 'my-plugins'";
          LogRecord WARNING "Plugin 'orphan' is not provided by any registered project";
          LogRecord INFO "Plugin 'unowned' is not provided by any registered project but is installed locally";
          LogRecord WARNING "Plugin 'zzz' is not provided by any registered project";
          LogRecord WARNING "Extension 'saqdhyndpvpa' is not provided by any registered project" ]
        (Ok ["mkdocs"; "mkdocs-redirects"]).
Proof. vm_compute. reflexivity. Qed.

(** An extra dependency keyed on a path found with the value null is
    active; one keyed on a path that is not found is not. *)
Example ex_extras_null :
  _dig ex_cfg_extras "theme.locale" = Some VNone ∧
  _dig ex_cfg_extras "plugins.mkdocstrings.handlers.python" = _NotFound ∧
  ex_get_deps ex_catalog ex_cfg_extras
    = MkM [] (Ok ["babel"; "mkdocs[i18n]"; "mkdocstrings"; "pytz"]).
Proof. vm_compute. split_and!; reflexivity. Qed.

(** Without any marker key there is one warning and nothing to install. *)
Example ex_empty :
  ex_get_deps ex_catalog (VDict ∅) =
    MkM [LogRecord WARNING "The file 'mkdocs.yml' doesn't seem to be a mkdocs.yml config file"]
        (Ok []).
Proof. vm_compute. reflexivity. Qed.

(** A configuration that is not a mapping. *)
Example ex_not_a_mapping :
  ex_get_deps ex_catalog (VList []) = MkM [] (Raise ValueError).
Proof. reflexivity. Qed.

(** The first project in catalog order that declares a wanted name and can
    be installed is the one installed. *)
Example ex_first_match_wins :
  ex_get_deps ex_catalog_twice ex_cfg_x = MkM [] (Ok ["first"; "mkdocs"]).
Proof. vm_compute. reflexivity. Qed.

(** A project that cannot be installed is reported and passed over; the name
    is still wanted when the next project is scanned. *)
Example ex_orphan_passed_over :
  ex_get_deps ex_catalog_orphan_first ex_cfg_x =
    MkM [LogRecord ERROR "Can't find how to install plugin 'x' although it was identified as <project>"]
        (Ok ["first"; "mkdocs"]).
Proof. vm_compute. reflexivity. Qed.

(** A theme that is a number is not [None], and for a declared name that
    starts with its rendering [len(theme)] raises. *)
Example ex_number_theme :
  effective_name (λ _, "<object>") (VInt 5) plugin_kind {[AStr "x"]} "5/x"
    = Raise TypeError ∧
  ex_get_deps [ex_project None (Some (One "5/x")) None (Some "p") None ∅]
              (VDict {[ "theme" := VInt 5; "plugins" := VList [VStr "x"] ]})
    = MkM [] (Raise TypeError).
Proof. vm_compute. split; reflexivity. Qed.

(** C3 (as stated) fails on the themes that are not a non-empty string, all
    of which reach the matching.  The empty string is no theme for the
    wanted sets ([truthy] is false), yet the declared name "/tags" satisfies
    the request for "tags".  With the theme [True], the declared name
    "True/x" is matched neither under "x" nor as declared: [len(theme)]
    raises and [get_deps] with it.  With the empty sequence as theme, the
    declared name "[]/x" satisfies the request for "]/x", which is not the
    part after the separator. *)
Lemma namespace_override_rule_needs_string_theme :
  (truthy (VStr "") = false ∧
   get_deps ex_entry_points (λ _, "<object>") (λ _, "<project>") "'mkdocs.yml'"
     [ex_project None (Some (One "/tags")) None (Some "p") None ∅]
     (VDict {[ "theme" := VStr ""; "plugins" := VList [VStr "tags"] ]})
   = MkM [] (Ok ["mkdocs"; "p"])) ∧
  (effective_name (λ _, "<object>") (VBool true) plugin_kind {[AStr "x"]} "True/x"
     = Raise TypeError ∧
   get_deps ex_entry_points (λ _, "<object>") (λ _, "<project>") "'mkdocs.yml'"
     [ex_project None (Some (One "True/x")) None (Some "p") None ∅]
     (VDict {[ "theme" := VBool true; "plugins" := VList [VStr "x"] ]})
   = MkM [] (Raise TypeError)) ∧
  (effective_name (λ _, "[]") (VList []) plugin_kind {[AStr "]/x"]} "[]/x"
     = Ok "]/x" ∧
   get_deps ex_entry_points (λ _, "[]") (λ _, "<project>") "'mkdocs.yml'"
     [ex_project None (Some (One "[]/x")) None (Some "p") None ∅]
     (VDict {[ "theme" := VList []; "plugins" := VList [VStr "]/x"] ]})
   = MkM [] (Ok ["mkdocs"; "p"])).
Proof. vm_compute. split_and!; reflexivity. Qed.

(** C1 (as stated) fails: with [theme.locale: uk] and a wanted plugin whose
    project is installed as "mkdocs", both identifiers are in the result. *)
Lemma get_deps_both_mkdocs_packages :
  ex_get_deps ex_catalog_mkdocs ex_cfg_locale_uk
    = MkM [] (Ok ["mkdocs"; "mkdocs[i18n]"]).
Proof. vm_compute. reflexivity. Qed.

(** ** The theorems at work *)

Lemma get_deps_mkdocs_package_witness :
  "mkdocs[i18n]" ∈ ["git+https://github.com/andyoakley/mkdocs-blog"; "mkdocs[i18n]"].
Proof.
  pose proof (get_deps_mkdocs_package ex_entry_points (λ _, "<object>")
                (λ _, "<project>") "'mkdocs.yml'" ex_catalog
                {[ "theme" := VDict {[ "name" := VStr "mkdocs";
                                       "locale" := VStr "uk" ]};
                   "plugins" := VList [VStr "blog"] ]}
                [] ["git+https://github.com/andyoakley/mkdocs-blog"; "mkdocs[i18n]"])
    as H.
  destruct H as (Hyes & _).
  - vm_compute. reflexivity.
  - exists "theme". split; [apply list_elem_of_In; simpl; tauto | vm_compute; discriminate].
  - apply Hyes. exists (VStr "uk"). split; [vm_compute; reflexivity | discriminate].
Defined.

Lemma get_deps_sorted_distinct_witness :
  StronglySorted String.le ["mkdocs"; "mkdocs-material"] ∧
  NoDup ["mkdocs"; "mkdocs-material"].
Proof.
  apply (get_deps_sorted_distinct ex_entry_points (λ _, "<object>")
           (λ _, "<project>") "'mkdocs.yml'" ex_catalog
           ex_cfg_theme_precedence []).
  vm_compute. reflexivity.
Defined.

Lemma get_deps_scalar_names_raise_witness :
  _strings (_dig (VDict {[ "site_name" := VStr "Test"; "plugins" := VNone ]})
                 "plugins") = Raise TypeError ∧
  ex_get_deps ex_catalog (VDict {[ "site_name" := VStr "Test"; "plugins" := VNone ]})
    = MkM [] (Raise TypeError).
Proof.
  apply (get_deps_scalar_names_raise ex_entry_points (λ _, "<object>")
           (λ _, "<project>") "'mkdocs.yml'" ex_catalog _ "plugins" ANone).
  - left. reflexivity.
  - vm_compute. reflexivity.
  - intros s. discriminate.
Defined.

Lemma namespace_override_rule_witness :
  effective_name (λ _, "<object>") (VStr "material") plugin_kind
    {[AStr "tags"]} "material/tags" = Ok "tags".
Proof.
  destruct (namespace_override_rule (λ _, "<object>") (λ _, "<project>")
              (VDict ∅) (VStr "material")
              (ex_project None None None None None ∅) plugin_kind ∅
              {[AStr "tags"]} "material/tags") as (_ & Hns & _).
  apply Hns. split; [reflexivity|]. exists "material".
  split_and!; [reflexivity | reflexivity | | ].
  - by apply elem_of_singleton.
  - intros [=]%elem_of_singleton.
Defined.

Lemma install_identifier_resolution_witness :
  scan_entry (λ _, "<object>") (λ _, "<project>") (VDict ∅) VNone
    (ex_project None (Some (One "blog")) None None (Some "andyoakley/mkdocs-blog") ∅)
    plugin_kind (∅, {[AStr "blog"]}) "blog"
  = MkM [] (Ok (add_extras (VDict ∅)
                  (ex_project None (Some (One "blog")) None None
                              (Some "andyoakley/mkdocs-blog") ∅)
                  ({["git+https://github.com/" +:+ "andyoakley/mkdocs-blog"]} ∪ ∅),
                {[AStr "blog"]} ∖ {[AStr "blog"]})).
Proof.
  destruct (install_identifier_resolution (λ _, "<object>") (λ _, "<project>")
              (VDict ∅) VNone
              (ex_project None (Some (One "blog")) None None
                          (Some "andyoakley/mkdocs-blog") ∅)
              plugin_kind (∅, {[AStr "blog"]}) "blog" "blog") as (_ & Hgh & _).
  - reflexivity.
  - by apply elem_of_singleton.
  - apply Hgh; reflexivity.
Defined.


Lemma local_registry_fallback_witness :
  diagnose ex_entry_points plugin_kind (AStr "local")
    = MkM [LogRecord INFO
             (not_provided plugin_kind (AStr "local")
                +:+ " but is installed locally"
                +:+ " from '" +:+ "my-plugins" +:+ "'")] (Ok tt).
Proof.
  destruct (local_registry_fallback ex_entry_points) as (_ & Hdiag & _).
  destruct (Hdiag plugin_kind (AStr "local")) as (_ & _ & Howned & _).
  apply (Howned {| dist := Some {| name := "my-plugins" |} |}
                {| name := "my-plugins" |}).
  - exists "local". split; [reflexivity | vm_compute; reflexivity].
  - reflexivity.
  - discriminate.
  - discriminate.
Defined.

(** * Further properties *)

(** ** Paths of the nested-key accessor *)

Lemma partition_no_sep c k :
  contains c k = false → partition c k = (k, "").
Proof.
  induction k as [|a k IH]; simpl; [done|].
  destruct (Ascii.eqb a c); simpl; [done|]. intros H. by rewrite IH.
Qed.

Lemma partition_sep c k rest :
  contains c k = false → partition c (k +:+ String c rest) = (k, rest).
Proof.
  induction k as [|a k IH]; simpl.
  - intros _. by rewrite Ascii.eqb_refl.
  - destruct (Ascii.eqb a c) eqn:E; simpl; [done|]. intros H. by rewrite IH.
Qed.


(** X1. What is not there is not found, and nothing else: a root that is not a
    mapping (a scalar, a string, a sequence) has no keys, so every path
    gives [_NotFound]; and a key without dot is [_NotFound] exactly when the
    root is not a mapping or the mapping lacks the key.  A key present with
    the value [None] is found. *)
Theorem _dig_not_found (cfg : value) :
  (∀ keys, (∀ d, cfg ≠ VDict d) → _dig cfg keys = _NotFound) ∧
  (∀ key, contains "." key = false →
          (_dig cfg key = _NotFound ↔ ∀ d, cfg = VDict d → d !! key = None)).
Proof.
  split.
  - intros keys Hcfg. rewrite _dig_eq.
    destruct cfg as [a|l|d]; [done..|]. by destruct (Hcfg d).
  - intros key Hkey%partition_no_sep.
    destruct cfg as [a|l|d].
    + split; [by intros _ d [=] | intros _; by rewrite _dig_eq].
    + split; [by intros _ d [=] | intros _; by rewrite _dig_eq].
    + rewrite (_dig_segment d key Hkey). split.
      * intros Hnone d' [= <-]. by destruct (d !! key).
      * intros Hnone. by rewrite (Hnone d eq_refl).
Qed.

(** X2. A path is followed one segment at a time: with a first segment [key]
    that holds no dot, [key.rest] digs [rest] in what [key] gives, a trailing
    dot changes nothing, and what is not found at [key] is not found below. *)
Theorem _dig_path (cfg : value) (key rest : string) :
  contains "." key = false →
  _dig cfg (key +:+ "." +:+ rest) =
    if decide (rest = "") then _dig cfg key
    else v ← _dig cfg key; _dig v rest.
Proof.
  intros Hkey.
  rewrite (_dig_eq cfg (key +:+ "." +:+ rest)), (_dig_eq cfg key).
  change ("." +:+ rest) with (String "." rest).
  rewrite (partition_sep _ _ _ Hkey), (partition_no_sep _ _ Hkey). simpl.
  destruct (getitem cfg key) as [v|e]; [|by destruct (decide _)].
  by destruct (decide (rest = "")).
Qed.

Lemma _dig_path_witness :
  _dig ex_cfg_extras ("theme" +:+ "." +:+ "locale") =
    v ← _dig ex_cfg_extras "theme"; _dig v "locale".
Proof. apply (_dig_path ex_cfg_extras "theme" "locale"). reflexivity. Defined.



(** ** The names of a flattened sequence *)

Lemma VDict_inj d1 d2 : VDict d1 = VDict d2 → d1 = d2.
Proof.
  intros H.
  by apply (f_equal (λ v, match v with VDict d => d | _ => ∅ end)) in H.
Qed.

Lemma item_names_size item k v d : item = VDict d → item_names item k v → size d = 1.
Proof.
  intros -> [->%VDict_inj | [[=] _]]. apply map_size_singleton.
Qed.

Lemma item_names_or_not item k :
  (∃ v, item_names item k v) ∨ (∀ v, ¬ item_names item k v).
Proof.
  destruct item as [[| | |s]|l|d].
  1-3, 5: right; intros v [[=] | [[=] _]].
  - destruct (decide (s = k)) as [->|Hne].
    + left. exists (VDict ∅). by right.
    + right. intros v [[=] | [[= ?] _]]. done.
  - destruct (decide (size d = 1)) as [Hsz|Hsz].
    + apply map_size_1_singleton in Hsz as (k' & v' & ->).
      destruct (decide (k' = k)) as [->|Hne].
      * left. exists v'. by left.
      * right. intros v [Hd%VDict_inj | [[=] _]].
        apply (f_equal (λ m : gmap string value, m !! k)) in Hd.
        rewrite lookup_singleton_eq, lookup_singleton_ne in Hd; done.
    + right. intros v Hn. apply Hsz. by eapply item_names_size.
Qed.

Lemma flatten_is_Some (l : list value) (k : string) :
  is_Some (flatten l !! k) ↔ ∃ item v, item ∈ l ∧ item_names item k v.
Proof.
  induction l as [|x l IH].
  - split; [by intros [? ?] | by intros (? & ? & ?%elem_of_nil & _)].
  - rewrite flatten_cons.
    destruct (item_names_or_not x k) as [[v Hv] | Hno].
    + rewrite (flatten_step_names _ _ _ _ Hv). split; [|eauto].
      intros _. exists x, v. split; [left | done].
    + rewrite (flatten_step_other _ _ _ Hno), IH. split.
      * intros (item & v & Hin & Hn). exists item, v. split; [by right | done].
      * intros (item & v & [-> | Hin]%elem_of_cons & Hn); [by destruct (Hno v)|].
        eauto.
Qed.

(** X4. The keys of the flat mapping of a sequence are the names of its items:
    the bare strings and the keys of the mappings of one key.  Every other
    item (a mapping of several keys or of none, a number, null, a nested
    sequence) leaves no key. *)
Theorem flatten_keys (l : list value) (k : string) :
  (flatten l !! k = None ↔ ∀ item v, item ∈ l → ¬ item_names item k v) ∧
  (k ∈ dom (flatten l) ↔ ∃ item v, item ∈ l ∧ item_names item k v).
Proof.
  split.
  - rewrite eq_None_not_Some, flatten_is_Some. split.
    + intros Hno item v Hin Hn. apply Hno. eauto.
    + intros Hno (item & v & Hin & Hn). by apply (Hno item v).
  - by rewrite elem_of_dom, flatten_is_Some.
Qed.

Lemma elem_of_key_set (m : gmap string value) (a : atom) :
  a ∈ (list_to_set (AStr <$> (fst <$> map_to_list m)) : gset atom) ↔
  ∃ s, a = AStr s ∧ is_Some (m !! s).
Proof.
  rewrite elem_of_list_to_set, list_elem_of_fmap. split.
  - intros (s & -> & ([s' v] & -> & Hin%elem_of_map_to_list)%list_elem_of_fmap).
    exists s'. split; [done | by exists v].
  - intros (s & -> & [v Hv]). exists s. split; [done|].
    apply list_elem_of_fmap. exists (s, v). split; [done|].
    by apply elem_of_map_to_list.
Qed.

Lemma names_requested (d : gmap string value) (key : string)
    (names : gset atom) (a : atom) :
  partition "." key = (key, "") →
  (l ← _strings (_dig (VDict d) key); py_set l) = Ok names →
  a ∈ names → ∃ s, a = AStr s ∧ names_in (d !! key) s.
Proof.
  intros Hkey. rewrite (_dig_segment d key Hkey).
  destruct (d !! key) as [[a0|l|m]|]; cbn [fmap option_fmap option_map flat names_in].
  - destruct a0 as [| | |s0]; try done.
    intros [= <-] [->%elem_of_singleton | []%elem_of_empty]%elem_of_union. eauto.
  - rewrite names_of_mapping. intros [= <-] (s & -> & Hs)%elem_of_key_set.
    apply flatten_is_Some in Hs. eauto.
  - rewrite names_of_mapping. intros [= <-]. apply elem_of_key_set.
  - by intros [= <-] []%elem_of_empty.
Qed.



(** X6. An option of a plugin is reached through the flat mapping: under a
    sequence at [key], the path [key.name] finds the value of the first item
    that names [name], flattened, and is [_NotFound] exactly when no item
    names it.  This is how an extra dependency keyed on [plugins.name] is
    tied to the plugin being listed. *)
Theorem _dig_item_of_sequence (d : gmap string value) (key name : string)
    (l : list value) :
  contains "." key = false →
  contains "." name = false →
  name ≠ "" →
  d !! key = Some (VList l) →
  _dig (VDict d) (key +:+ "." +:+ name) = flat <$> flatten l !! name ∧
  (_dig (VDict d) (key +:+ "." +:+ name) ≠ _NotFound ↔
   ∃ item v, item ∈ l ∧ item_names item name v).
Proof.
  intros Hkey Hname Hne Hd.
  assert (_dig (VDict d) (key +:+ "." +:+ name) = flat <$> flatten l !! name)
    as Hdig.
  { rewrite _dig_eq. change ("." +:+ name) with (String "." name).
    rewrite (partition_sep _ _ _ Hkey). simpl. rewrite Hd.
    destruct (decide (name = "")); [done|]. simpl.
    apply _dig_segment. by apply partition_no_sep. }
  split; [done|]. rewrite Hdig, <- flatten_is_Some.
  destruct (flatten l !! name) as [v|]; simpl.
  - split; [intros _; by eexists | done].
  - split; [done | by intros [? ?]].
Qed.

Lemma _dig_item_of_sequence_witness :
  _dig ex_cfg_extras ("plugins" +:+ "." +:+ "mkdocstrings")
    = flat <$> flatten [VDict {[ "mkdocstrings" := VNone ]}] !! "mkdocstrings" ∧
  (_dig ex_cfg_extras ("plugins" +:+ "." +:+ "mkdocstrings") ≠ _NotFound ↔
   ∃ item v, item ∈ [VDict {[ "mkdocstrings" := VNone ]}] ∧
             item_names item "mkdocstrings" v).
Proof.
  apply (_dig_item_of_sequence
           {[ "theme" := VDict {[ "name" := VStr "mkdocs"; "locale" := VNone ]};
              "plugins" := VList [VDict {[ "mkdocstrings" := VNone ]}] ]}
           "plugins" "mkdocstrings" [VDict {[ "mkdocstrings" := VNone ]}]).
  - reflexivity.
  - reflexivity.
  - discriminate.
  - vm_compute. reflexivity.
Defined.

(** ** The scan, one kind at a time *)

Section scan_by_kind.
Variable repr : value → string.
Variable repr_project : Project → string.

Local Abbreviation effective_name := (effective_name repr).
Local Abbreviation scan_entry := (scan_entry repr repr_project).
Local Abbreviation scan_kind := (scan_kind repr repr_project).
Local Abbreviation scan_kinds := (scan_kinds repr repr_project).
Local Abbreviation scan := (scan repr repr_project).
Local Abbreviation wanted_chain := (wanted_chain repr repr_project).

Lemma str_drop_suffix n s : ∃ pre, s = pre +:+ str_drop n s.
Proof.
  revert s. induction n as [|n IH]; intros s.
  - by exists "".
  - destruct s as [|a s]; [by exists ""|].
    destruct (IH s) as [pre Hpre]. exists (String a pre). simpl.
    by rewrite app_cons, <- Hpre.
Qed.

Lemma effective_name_cases theme kind wanted entry_name n :
  effective_name theme kind wanted entry_name = Ok n →
  n = entry_name ∨
  (projects_key kind = "mkdocs_plugin" ∧ AStr n ∈ wanted ∧
   (AStr entry_name ∉ wanted) ∧ ∃ pre, entry_name = pre +:+ n).
Proof.
  unfold effective_name.
  destruct (contains "/" entry_name); [|intros [= <-]; by left].
  destruct (is_None theme); [intros [= <-]; by left|].
  destruct (String.eqb_spec (projects_key kind) "mkdocs_plugin") as [Hk|];
    [|intros [= <-]; by left].
  simpl. destruct (startswith _ _); [|intros [= <-]; by left].
  destruct (py_len theme) as [len|]; [|done]. simpl.
  destruct (bool_decide (AStr (str_drop (len + 1) entry_name) ∈ wanted)) eqn:Hin;
    [|intros [= <-]; by left].
  destruct (bool_decide (AStr entry_name ∉ wanted)) eqn:Hnot;
    [|intros [= <-]; by left].
  simpl. intros [= <-]. right.
  apply bool_decide_eq_true in Hin, Hnot.
  split_and!; [done..|]. apply str_drop_suffix.
Qed.

(** X7. The namespace rule never invents a name: whatever the theme is, the
    name under which a declared name is looked up is the declared name
    itself or, for the plugin kind only, a wanted suffix of a declared name
    that is not itself wanted. *)
Theorem effective_name_is_declared_or_wanted_suffix (theme : value)
    (kind : _PluginKind) (wanted : gset atom) (entry_name n : string) :
  effective_name theme kind wanted entry_name = Ok n →
  n = entry_name ∨
  (projects_key kind = "mkdocs_plugin" ∧ AStr n ∈ wanted ∧
   (AStr entry_name ∉ wanted) ∧ ∃ pre, entry_name = pre +:+ n).
Proof. apply effective_name_cases. Qed.

(** *** The wanted set of a kind through the catalog *)

Lemma scan_kinds_lookup cfg theme project packages wps lg st' i kind wanted :
  scan_kinds cfg theme project packages wps = MkM lg (Ok st') →
  wps !! i = Some (kind, wanted) →
  ∃ packages0 lg0 packages1 wanted1,
    scan_kind cfg theme project kind (packages0, wanted)
      = MkM lg0 (Ok (packages1, wanted1)) ∧
    st'.2 !! i = Some (kind, wanted1) ∧
    packages1 ⊆ st'.1.
Proof.
  revert packages lg st' i. induction wps as [|[kind0 wanted0] wps IH];
    intros packages lg st' i H Hi; [done|]. simpl in H.
  apply bind_Ok_inv in H as ([pk1 w1] & l1 & l2 & H1 & H & _).
  apply bind_Ok_inv in H as (s2 & l3 & l4 & H2 & [<- _]%ret_Ok_inv & _).
  destruct i as [|i]; simpl in *.
  - injection Hi as -> ->. apply scan_kinds_inv in H2 as [[Hsub _] _].
    eauto 10.
  - eapply IH; eauto.
Qed.

Lemma scan_wanted_chain cfg theme projects st lg st' i kind wanted :
  scan cfg theme projects st = MkM lg (Ok st') →
  st.2 !! i = Some (kind, wanted) →
  ∃ wanted', st'.2 !! i = Some (kind, wanted') ∧
             wanted_chain cfg theme kind projects wanted wanted'.
Proof.
  unfold scan. revert st lg wanted.
  induction projects as [|p ps IH]; intros st lg wanted H Hi; simpl in H.
  - apply ret_Ok_inv in H as [<- _]. exists wanted. split; [done | constructor].
  - apply bind_Ok_inv in H as (s1 & l1 & l2 & H1 & H2 & _).
    destruct (scan_kinds_lookup _ _ _ _ _ _ _ _ _ _ H1 Hi)
      as (pk0 & lg0 & pk1 & w1 & Hk & Hi1 & _).
    destruct (IH _ _ _ H2 Hi1) as (w' & Hi' & Hchain).
    exists w'. split; [done|]. econstructor; eauto.
Qed.

Lemma scan_kind_shrinks cfg theme project kind st lg st' :
  scan_kind cfg theme project kind st = MkM lg (Ok st') → st'.2 ⊆ st.2.
Proof. by intros [_ ?]%scan_kind_inv. Qed.

Lemma wanted_chain_shrinks cfg theme kind projects wanted wanted' :
  wanted_chain cfg theme kind projects wanted wanted' → wanted' ⊆ wanted.
Proof.
  induction 1 as [|p ps pk lg pk' w w1 w' Hk _ IH]; [done|].
  apply scan_kind_shrinks in Hk. simpl in Hk. by etrans.
Qed.

(** *** Names that an installable project declares *)

Lemma scan_entry_declared_gone cfg theme project kind st entry_name lg st' :
  install_name project ≠ None →
  scan_entry cfg theme project kind st entry_name = MkM lg (Ok st') →
  AStr entry_name ∉ st'.2.
Proof.
  intros Hid
    (n & Hn & [(Hnot & -> & _) | [(_ & Hnone & _) | (Hin & _ & id & _ & ->)]])
    %scan_entry_cases; [|done|].
  - destruct (effective_name_cases _ _ _ _ _ Hn) as [-> | (_ & _ & ? & _)]; done.
  - simpl. intros [He Hne]%elem_of_difference.
    destruct (effective_name_cases _ _ _ _ _ Hn) as [-> | (_ & _ & ? & _)];
      [|done].
    apply Hne. by apply elem_of_singleton.
Qed.

Lemma foldM_entries_shrink cfg theme project kind l st lg st' :
  foldM (scan_entry cfg theme project kind) st l = MkM lg (Ok st') →
  st'.2 ⊆ st.2.
Proof.
  apply (foldM_Ok_ind (λ s s', s'.2 ⊆ s.2)); [done | |].
  - intros ? ? ? ? ?. by etrans.
  - intros s x lg' s' _ Hx. by apply scan_entry_inv in Hx as [_ ?].
Qed.

Lemma scan_kind_declared_gone cfg theme project kind st lg st' entry_name :
  install_name project ≠ None →
  scan_kind cfg theme project kind st = MkM lg (Ok st') →
  entry_name ∈ _strings_decl (project_get project (projects_key kind)) →
  AStr entry_name ∉ st'.2.
Proof.
  intros Hid. unfold scan_kind.
  generalize (_strings_decl (project_get project (projects_key kind))) as l.
  intros l. revert st lg. induction l as [|e l IH]; intros st lg H Hin.
  - by apply elem_of_nil in Hin.
  - simpl in H. apply bind_Ok_inv in H as (s1 & l1 & l2 & H1 & H2 & _).
    apply elem_of_cons in Hin as [-> | Hin]; [|by eapply IH].
    apply scan_entry_declared_gone in H1; [|done].
    apply foldM_entries_shrink in H2. intros He. by apply H1, H2.
Qed.

Lemma wanted_chain_declared_gone cfg theme kind projects wanted wanted'
    project entry_name :
  wanted_chain cfg theme kind projects wanted wanted' →
  project ∈ projects →
  install_name project ≠ None →
  entry_name ∈ _strings_decl (project_get project (projects_key kind)) →
  AStr entry_name ∉ wanted'.
Proof.
  induction 1 as [|p ps pk lg pk' w w1 w' Hk Hchain IH]; intros Hp Hid He.
  - by apply elem_of_nil in Hp.
  - apply elem_of_cons in Hp as [-> | Hp]; [|by apply IH].
    pose proof (scan_kind_declared_gone _ _ _ _ _ _ _ _ Hid Hk He) as Hgone.
    apply wanted_chain_shrinks in Hchain. intros Hin. by apply Hgone, Hchain.
Qed.

(** X8. After the scan of the catalog, no name that a project with an install
    identifier declares for a kind is left in the wanted set of that kind:
    the diagnostics never concern a name that the catalog knows how to
    install under that very name. *)
Theorem scan_matches_every_declared_name (cfg theme : value)
    (projects : list Project)
    (st st' : gset string * list (_PluginKind * gset atom))
    (lg : list log_record) (project : Project) (i : nat)
    (kind : _PluginKind) (wanted' : gset atom) (entry_name : string) :
  scan cfg theme projects st = MkM lg (Ok st') →
  project ∈ projects →
  install_name project ≠ None →
  st'.2 !! i = Some (kind, wanted') →
  entry_name ∈ _strings_decl (project_get project (projects_key kind)) →
  AStr entry_name ∉ wanted'.
Proof.
  intros Hscan Hp Hid Hi' He.
  pose proof Hscan as [_ Hshr]%scan_inv.
  destruct (Forall2_lookup_r _ _ _ _ _ Hshr Hi') as ([kind0 w] & Hi & Hk & _).
  simpl in Hk. subst kind0.
  destruct (scan_wanted_chain _ _ _ _ _ _ _ _ _ Hscan Hi) as (w' & Hi2 & Hchain).
  rewrite Hi' in Hi2. injection Hi2 as <-.
  by eapply wanted_chain_declared_gone.
Qed.

(** *** A namespaced entry of the theme stands for the plain name *)

Lemma scan_entry_namespaced_gone cfg t project kind st suffix lg st' :
  projects_key kind = "mkdocs_plugin" →
  install_name project ≠ None →
  scan_entry cfg (VStr t) project kind st (t +:+ "/" +:+ suffix)
    = MkM lg (Ok st') →
  AStr (t +:+ "/" +:+ suffix) ∉ st.2 →
  AStr suffix ∉ st'.2.
Proof.
  intros Hkind Hid H Hnot.
  destruct (decide (AStr suffix ∈ st.2)) as [Hin|Hout].
  - assert (effective_name (VStr t) kind st.2 (t +:+ "/" +:+ suffix) = Ok suffix)
      as Hn.
    { apply effective_name_namespaced. split; [done|]. by exists t. }
    rewrite (scan_entry_wanted _ _ _ _ _ _ _ _ suffix Hn Hin) in H.
    destruct (install_name project); [|done]. injection H as _ <-. simpl.
    intros [_ Hne]%elem_of_difference. apply Hne. by apply elem_of_singleton.
  - apply scan_entry_inv in H as [_ Hsub]. intros Hin. by apply Hout, Hsub.
Qed.

Lemma scan_kind_namespaced_gone cfg t project kind st suffix lg st' :
  projects_key kind = "mkdocs_plugin" →
  install_name project ≠ None →
  scan_kind cfg (VStr t) project kind st = MkM lg (Ok st') →
  t +:+ "/" +:+ suffix ∈ _strings_decl (project_get project (projects_key kind)) →
  AStr (t +:+ "/" +:+ suffix) ∉ st.2 →
  AStr suffix ∉ st'.2.
Proof.
  intros Hkind Hid. unfold scan_kind.
  generalize (_strings_decl (project_get project (projects_key kind))) as l.
  intros l. revert st lg. induction l as [|e l IH]; intros st lg H Hin Hnot.
  - by apply elem_of_nil in Hin.
  - simpl in H. apply bind_Ok_inv in H as (s1 & l1 & l2 & H1 & H2 & _).
    apply elem_of_cons in Hin as [<- | Hin].
    + apply scan_entry_namespaced_gone in H1; [|done..].
      apply foldM_entries_shrink in H2. intros He. by apply H1, H2.
    + eapply IH; [exact H2 | done |].
      apply scan_entry_inv in H1 as [_ Hsub]. intros He. by apply Hnot, Hsub.
Qed.

Lemma wanted_chain_namespaced_gone cfg t kind projects wanted wanted'
    project suffix :
  wanted_chain cfg (VStr t) kind projects wanted wanted' →
  projects_key kind = "mkdocs_plugin" →
  project ∈ projects →
  install_name project ≠ None →
  t +:+ "/" +:+ suffix ∈ _strings_decl (project_get project (projects_key kind)) →
  AStr (t +:+ "/" +:+ suffix) ∉ wanted →
  AStr suffix ∉ wanted'.
Proof.
  induction 1 as [|p ps pk lg pk' w w1 w' Hk Hchain IH];
    intros Hkind Hp Hid He Hnot.
  - by apply elem_of_nil in Hp.
  - apply elem_of_cons in Hp as [-> | Hp].
    + pose proof (scan_kind_namespaced_gone _ _ _ _ _ _ _ _ Hkind Hid Hk He Hnot)
        as Hgone.
      apply wanted_chain_shrinks in Hchain. intros Hin. by apply Hgone, Hchain.
    + apply IH; [done..|]. apply scan_kind_shrinks in Hk. simpl in Hk.
      intros Hin. by apply Hnot, Hk.
Qed.

(** X9. With the theme [t], a plugin that an installable project declares as
    [t/suffix] satisfies the request for [suffix]: unless the configuration
    asks for [t/suffix] itself, [suffix] is no longer wanted after the scan,
    wherever the project stands in the catalog. *)
Theorem scan_matches_theme_namespaced_name (cfg : value) (t : string)
    (projects : list Project)
    (st st' : gset string * list (_PluginKind * gset atom))
    (lg : list log_record) (project : Project) (i : nat)
    (kind : _PluginKind) (wanted : gset atom) (suffix : string) :
  scan cfg (VStr t) projects st = MkM lg (Ok st') →
  st.2 !! i = Some (kind, wanted) →
  projects_key kind = "mkdocs_plugin" →
  project ∈ projects →
  install_name project ≠ None →
  t +:+ "/" +:+ suffix ∈ _strings_decl (project_get project (projects_key kind)) →
  AStr (t +:+ "/" +:+ suffix) ∉ wanted →
  ∃ wanted', st'.2 !! i = Some (kind, wanted') ∧ AStr suffix ∉ wanted'.
Proof.
  intros Hscan Hi Hkind Hp Hid He Hnot.
  destruct (scan_wanted_chain _ _ _ _ _ _ _ _ _ Hscan Hi) as (w' & Hi' & Hchain).
  exists w'. split; [done|]. by eapply wanted_chain_namespaced_gone.
Qed.

(** *** Kinds without namespace *)

Lemma effective_name_plain theme kind wanted entry_name :
  projects_key kind ≠ "mkdocs_plugin" ∨ theme = VNone →
  effective_name theme kind wanted entry_name = Ok entry_name.
Proof.
  intros Hplain. unfold effective_name.
  destruct (contains "/" entry_name); [|done].
  destruct Hplain as [Hk | ->]; simpl; [|done].
  destruct (is_None theme); [done|]. simpl.
  by destruct (String.eqb_spec (projects_key kind) "mkdocs_plugin").
Qed.

Lemma scan_entry_plain cfg theme project kind st entry_name lg st' :
  projects_key kind ≠ "mkdocs_plugin" ∨ theme = VNone →
  scan_entry cfg theme project kind st entry_name = MkM lg (Ok st') →
  ∀ a, a ∈ st'.2 ↔
       a ∈ st.2 ∧ ¬ (install_name project ≠ None ∧ a = AStr entry_name).
Proof.
  intros Hplain H a.
  pose proof (effective_name_plain theme kind st.2 entry_name Hplain) as Hn.
  destruct (decide (AStr entry_name ∈ st.2)) as [Hin|Hout].
  - rewrite (scan_entry_wanted _ _ _ _ _ _ _ _ _ Hn Hin) in H.
    destruct (install_name project) as [id|]; injection H as _ <-; simpl.
    + rewrite elem_of_difference, elem_of_singleton. split.
      * intros [Ha Hne]. split; [done|]. by intros [_ ?].
      * intros [Ha Hne]. split; [done|]. intros ->. by apply Hne.
    + split; [|tauto]. intros Ha. split; [done|]. by intros [? _].
  - rewrite (scan_entry_unwanted _ _ _ _ _ _ _ _ _ Hn Hout) in H.
    injection H as _ <-. split; [|tauto].
    intros Ha. split; [done|]. intros [_ ->]. done.
Qed.

Lemma foldM_entries_plain cfg theme project kind l st lg st' :
  projects_key kind ≠ "mkdocs_plugin" ∨ theme = VNone →
  foldM (scan_entry cfg theme project kind) st l = MkM lg (Ok st') →
  ∀ a, a ∈ st'.2 ↔
       a ∈ st.2 ∧
       ¬ (install_name project ≠ None ∧ ∃ e, e ∈ l ∧ a = AStr e).
Proof.
  intros Hplain. revert st lg. induction l as [|e l IH]; intros st lg H a;
    simpl in H.
  - apply ret_Ok_inv in H as [<- _]. split; [|tauto].
    intros Ha. split; [done|]. intros (_ & ? & []%elem_of_nil & _).
  - apply bind_Ok_inv in H as (s1 & l1 & l2 & H1 & H2 & _).
    rewrite (IH _ _ H2 a), (scan_entry_plain _ _ _ _ _ _ _ _ Hplain H1 a).
    split.
    + intros [[Ha Hne] Hno]. split; [done|].
      intros (Hid & e' & [-> | Hin]%elem_of_cons & ->).
      * by apply Hne.
      * apply Hno. eauto.
    + intros [Ha Hno]. split_and!; [done | |].
      * intros [Hid ->]. apply Hno. split; [done|]. exists e. split; [left | done].
      * intros (Hid & e' & Hin & ->). apply Hno. split; [done|].
        exists e'. split; [by right | done].
Qed.

Lemma scan_kind_plain cfg theme project kind st lg st' :
  projects_key kind ≠ "mkdocs_plugin" ∨ theme = VNone →
  scan_kind cfg theme project kind st = MkM lg (Ok st') →
  ∀ a, a ∈ st'.2 ↔ a ∈ st.2 ∧ ¬ declared_installable [project] kind a.
Proof.
  intros Hplain H a. unfold scan_kind in H.
  rewrite (foldM_entries_plain _ _ _ _ _ _ _ _ Hplain H a).
  unfold declared_installable. split; intros [Ha Hno]; (split; [done|]).
  - intros (p & e & ->%list_elem_of_singleton & Hid & He & ->).
    apply Hno. eauto.
  - intros (Hid & e & He & ->). apply Hno. exists project, e.
    split_and!; [left | done..].
Qed.

Lemma wanted_chain_plain cfg theme kind projects wanted wanted' :
  projects_key kind ≠ "mkdocs_plugin" ∨ theme = VNone →
  wanted_chain cfg theme kind projects wanted wanted' →
  ∀ a, a ∈ wanted' ↔ a ∈ wanted ∧ ¬ declared_installable projects kind a.
Proof.
  intros Hplain. induction 1 as [|p ps pk lg pk' w w1 w' Hk _ IH]; intros a.
  - split; [|tauto]. intros Ha. split; [done|].
    intros (? & ? & []%elem_of_nil & _).
  - rewrite IH, (scan_kind_plain _ _ _ _ _ _ _ Hplain Hk a). simpl.
    unfold declared_installable. split.
    + intros [[Ha Hno1] Hno2]. split; [done|].
      intros (q & e & [-> | Hq]%elem_of_cons & Hid & He & ->).
      * apply Hno1. exists p, e. split_and!; [left | done..].
      * apply Hno2. exists q, e. done.
    + intros [Ha Hno]. split_and!; [done | |].
      * intros (q & e & ->%list_elem_of_singleton & Hid & He & ->).
        apply Hno. exists p, e. split_and!; [left | done..].
      * intros (q & e & Hq & Hid & He & ->).
        apply Hno. exists q, e. split_and!; [by right | done..].
Qed.

(** X10. For the theme and extension kinds, and for every kind when the
    configuration has no theme, the scan is plain set difference: a name is
    still wanted after the scan iff it was wanted before and no project with
    an install identifier declares it for that kind. *)
Theorem scan_plain_kind_leaves_undeclared (cfg theme : value)
    (projects : list Project)
    (st st' : gset string * list (_PluginKind * gset atom))
    (lg : list log_record) (i : nat) (kind : _PluginKind)
    (wanted : gset atom) :
  scan cfg theme projects st = MkM lg (Ok st') →
  st.2 !! i = Some (kind, wanted) →
  projects_key kind ≠ "mkdocs_plugin" ∨ theme = VNone →
  ∃ wanted', st'.2 !! i = Some (kind, wanted') ∧
    ∀ a, a ∈ wanted' ↔ a ∈ wanted ∧ ¬ declared_installable projects kind a.
Proof.
  intros Hscan Hi Hplain.
  destruct (scan_wanted_chain _ _ _ _ _ _ _ _ _ Hscan Hi) as (w' & Hi' & Hchain).
  exists w'. split; [done|]. by eapply wanted_chain_plain.
Qed.

(** *** Names that leave a wanted set *)

Lemma foldM_entries_grow cfg theme project kind l
    (st : gset string * gset atom) lg st' :
  foldM (scan_entry cfg theme project kind) st l = MkM lg (Ok st') →
  st.1 ⊆ st'.1.
Proof.
  revert st lg. induction l as [|e l IH]; intros st lg H; simpl in H.
  - by apply ret_Ok_inv in H as [<- _].
  - apply bind_Ok_inv in H as (s1 & l1 & l2 & H1 & H2 & _).
    apply scan_entry_inv in H1 as [[? _] _]. apply IH in H2. by etrans.
Qed.

Lemma foldM_entries_removed cfg theme project kind l st lg st' a :
  foldM (scan_entry cfg theme project kind) st l = MkM lg (Ok st') →
  a ∈ st.2 → a ∉ st'.2 →
  ∃ id entry_name pre n,
    install_name project = Some id ∧ id ∈ st'.1 ∧
    entry_name ∈ l ∧ a = AStr n ∧ entry_name = pre +:+ n.
Proof.
  revert st lg. induction l as [|e l IH]; intros st lg H Hin Hout; simpl in H.
  - apply ret_Ok_inv in H as [<- _]. done.
  - apply bind_Ok_inv in H as (s1 & l1 & l2 & H1 & H2 & _).
    destruct (decide (a ∈ s1.2)) as [Hin1|Hout1].
    + destruct (IH _ _ H2 Hin1 Hout) as (id & e' & pre & n & ? & ? & ? & ? & ?).
      exists id, e', pre, n. split_and!; [done.. | by right | done | done].
    + pose proof H1 as
        (n & Hn & [(_ & -> & _) | [(_ & _ & -> & _) | (_ & _ & id & Hid & ->)]])
        %scan_entry_cases; [done..|].
      simpl in Hout1.
      assert (a = AStr n) as ->.
      { destruct (decide (a = AStr n)) as [|Hne]; [done|].
        destruct Hout1. apply elem_of_difference. split; [done|].
        by intros ?%elem_of_singleton. }
      assert (id ∈ st'.1) as Hid'.
      { eapply scan_entry_changed in H1; [| exact Hid | simpl].
        - apply (foldM_entries_grow _ _ _ _ _ _ _ _ H2). exact H1.
        - intros Heq. apply Hout1. simpl. by rewrite Heq. }
      destruct (effective_name_cases _ _ _ _ _ Hn) as [-> | (_ & _ & _ & pre & ->)].
      * exists id, e, "", e. split_and!; [done.. | left | done | done].
      * exists id, (pre +:+ n), pre, n. split_and!; [done.. | left | done | done].
Qed.

Lemma scan_removed_installed cfg theme projects st lg st' i kind wanted wanted'
    a :
  scan cfg theme projects st = MkM lg (Ok st') →
  st.2 !! i = Some (kind, wanted) →
  st'.2 !! i = Some (kind, wanted') →
  a ∈ wanted → a ∉ wanted' →
  ∃ project id entry_name pre n,
    project ∈ projects ∧ install_name project = Some id ∧ id ∈ st'.1 ∧
    entry_name ∈ _strings_decl (project_get project (projects_key kind)) ∧
    a = AStr n ∧ entry_name = pre +:+ n.
Proof.
  unfold scan. revert st lg wanted.
  induction projects as [|p ps IH]; intros st lg wanted H Hi Hi' Hin Hout;
    simpl in H.
  - apply ret_Ok_inv in H as [<- _]. rewrite Hi in Hi'. by injection Hi' as <-.
  - apply bind_Ok_inv in H as (s1 & l1 & l2 & H1 & H2 & _).
    destruct (scan_kinds_lookup _ _ _ _ _ _ _ _ _ _ H1 Hi)
      as (pk0 & lg0 & pk1 & w1 & Hk & Hi1 & Hsub).
    destruct (decide (a ∈ w1)) as [Hin1|Hout1].
    + destruct (IH _ _ _ H2 Hi1 Hi' Hin1 Hout)
        as (q & id & e & pre & n & ? & ? & ? & ? & ? & ?).
      exists q, id, e, pre, n. split_and!; [by right | done..].
    + unfold scan_kind in Hk.
      destruct (foldM_entries_removed _ _ _ _ _ _ _ _ _ Hk Hin Hout1)
        as (id & e & pre & n & Hid & Hidin & He & -> & ->).
      exists p, id, (pre +:+ n), pre, n. split_and!; [left | done | | done..].
      pose proof (scan_inv repr repr_project cfg theme ps s1 l2 st') as Hinv.
      unfold scan in Hinv. apply Hinv in H2 as [[Hsub2 _] _].
      by apply Hsub2, Hsub.
Qed.

(** X11. A name leaves a wanted set only by being matched: when a name is wanted
    before the scan and not after it, some project of the catalog declares
    it for that kind, as it is or behind a prefix, and the install
    identifier of that project is in the package set. *)
Theorem scan_removed_name_is_installed (cfg theme : value)
    (projects : list Project)
    (st st' : gset string * list (_PluginKind * gset atom))
    (lg : list log_record) (i : nat) (kind : _PluginKind)
    (wanted wanted' : gset atom) (a : atom) :
  scan cfg theme projects st = MkM lg (Ok st') →
  st.2 !! i = Some (kind, wanted) →
  st'.2 !! i = Some (kind, wanted') →
  a ∈ wanted → a ∉ wanted' →
  ∃ project id entry_name pre n,
    project ∈ projects ∧ install_name project = Some id ∧ id ∈ st'.1 ∧
    entry_name ∈ _strings_decl (project_get project (projects_key kind)) ∧
    a = AStr n ∧ entry_name = pre +:+ n.
Proof. apply scan_removed_installed. Qed.

End scan_by_kind.

(** ** C2: the first match in catalog order wins *)

Lemma shrinks_antisym wps wps' : shrinks wps wps' → shrinks wps' wps → wps' = wps.
Proof.
  unfold shrinks. intros H. induction H as [|kw kw' l l' [Hk Hs] _ IH]; [done|].
  intros H'. apply Forall2_cons in H' as [[_ Hs'] Hl].
  rewrite (IH Hl). f_equal.
  destruct kw as [k w], kw' as [k' w']. simpl in *. subst k'. f_equal.
  by apply (anti_symm (⊆)).
Qed.

Section first_match.
Variable _entry_points : string → gmap string EntryPoint.
Variable repr : value → string.
Variable repr_project : Project → string.
Variable repr_config_file : string.

Local Abbreviation get_deps :=
  (get_deps _entry_points repr repr_project repr_config_file).
Local Abbreviation effective_name := (effective_name repr).
Local Abbreviation scan_entry := (scan_entry repr repr_project).
Local Abbreviation scan_kind := (scan_kind repr repr_project).
Local Abbreviation scan_kinds := (scan_kinds repr repr_project).
Local Abbreviation scan := (scan repr repr_project).
Local Abbreviation report := (report _entry_points).
Local Abbreviation diagnose := (diagnose _entry_points).

(** A part of the catalog that takes no name adds no package. *)
Lemma scan_same_wanted cfg theme projects st lg st' :
  scan cfg theme projects st = MkM lg (Ok st') → st'.2 = st.2 → st'.1 = st.1.
Proof.
  unfold scan. revert st lg.
  induction projects as [|p ps IH]; intros st lg H Heq; simpl in H.
  - by apply ret_Ok_inv in H as [<- _].
  - apply bind_Ok_inv in H as (s1 & l1 & l2 & H1 & H2 & _).
    pose proof (scan_kinds_inv _ _ _ _ _ _ _ _ _ H1) as [_ Hs1].
    pose proof (scan_inv repr repr_project cfg theme ps s1 l2 st') as Hinv.
    unfold scan in Hinv. apply Hinv in H2 as Hs2. destruct Hs2 as [_ Hs2].
    assert (s1.2 = st.2) as Heq1.
    { apply shrinks_antisym; [done|]. by rewrite <- Heq. }
    apply scan_kinds_same_wanted in H1; [|done].
    rewrite <- H1. apply (IH _ _ H2). congruence.
Qed.

(** The project that first declares a wanted name, with an install
    identifier, takes it. *)
Lemma scan_first_match cfg theme projects1 project projects2 st lg st' st1 lg1
    i kind wanted n id :
  scan cfg theme (projects1 ++ project :: projects2) st = MkM lg (Ok st') →
  scan cfg theme projects1 st = MkM lg1 (Ok st1) →
  st1.2 !! i = Some (kind, wanted) →
  AStr n ∈ wanted →
  install_name project = Some id →
  n ∈ _strings_decl (project_get project (projects_key kind)) ∨
  (∃ t, theme = VStr t ∧ projects_key kind = "mkdocs_plugin" ∧
        t +:+ "/" +:+ n
          ∈ _strings_decl (project_get project (projects_key kind)) ∧
        AStr (t +:+ "/" +:+ n) ∉ wanted) →
  ∃ lg2 st2 wanted2 lg3,
    scan_kinds cfg theme project st1.1 st1.2 = MkM lg2 (Ok st2) ∧
    st2.2 !! i = Some (kind, wanted2) ∧ (AStr n ∉ wanted2) ∧ id ∈ st2.1 ∧
    scan cfg theme projects2 st2 = MkM lg3 (Ok st') ∧
    id ∈ st'.1 ∧
    ∀ later1 later2 s lgs,
      projects2 = later1 ++ later2 →
      scan cfg theme later1 st2 = MkM lgs (Ok s) →
      ∃ w, s.2 !! i = Some (kind, w) ∧ (AStr n ∉ w) ∧
           ∀ later packages w' entry_name,
             w' ⊆ w →
             effective_name theme kind w' entry_name = Ok n →
             scan_entry cfg theme later kind (packages, w') entry_name
               = MkM [] (Ok (packages, w')).
Proof.
  intros H H1 Hi Hn Hid Hdecl. unfold scan in H.
  apply foldM_app in H as (st1' & lg1' & lg' & H1' & H & _).
  unfold scan in H1. rewrite H1 in H1'. injection H1' as _ <-.
  simpl in H. apply bind_Ok_inv in H as (st2 & lg2 & lg3 & Hp & H2 & _).
  destruct (scan_kinds_lookup _ _ _ _ _ _ _ _ _ _ _ _ Hp Hi)
    as (pk0 & lg0 & pk1 & w1 & Hk & Hi2 & Hsub).
  assert (AStr n ∉ w1) as Hgone.
  { destruct Hdecl as [Hdecl | (t & -> & Hkind & Hdecl & Hnot)].
    - eapply (scan_kind_declared_gone _ _ _ _ _ _ _ _ _ n) in Hk;
        [done | by rewrite Hid | done].
    - eapply (scan_kind_namespaced_gone _ _ _ _ _ _ _ n) in Hk;
        [done | done | by rewrite Hid | done | done]. }
  assert (id ∈ pk1) as Hpk.
  { eapply (scan_kind_changed _ _ _ _ _ _ _ _ _ id) in Hk; [done | done |].
    simpl. intros Heq. apply Hgone. by rewrite Heq. }
  pose proof (scan_inv repr repr_project cfg theme projects2 st2 lg3 st') as Hinv.
  unfold scan in Hinv. apply Hinv in H2 as Hg. destruct Hg as [[Hsub2 _] _].
  exists lg2, st2, w1, lg3. split_and!; [done.. | by apply Hsub | done | |].
  - by apply Hsub2, Hsub.
  - intros later1 later2 s lgs _ Hs.
    apply scan_inv in Hs as [_ Hshr].
    destruct (Forall2_lookup_l _ _ _ _ _ Hshr Hi2) as ([k w] & Hiw & Hkw & Hsubw).
    simpl in Hkw, Hsubw. subst k. exists w.
    assert (AStr n ∉ w) as Hw by (intros Hin; by apply Hgone, Hsubw).
    split_and!; [done..|].
    intros later packages w' e Hsubw' He.
    apply (scan_entry_unwanted _ _ _ _ _ _ (packages, w') _ n); [done|].
    simpl. intros Hin. by apply Hw, Hsubw'.
Qed.

(** C2. A name that a project matches, and for which an install identifier
    is resolved, is removed from the wanted set of its kind.  The catalog is
    scanned in order, project by project, so the first project that
    declares a name still wanted (as it is or, for a plugin, behind the
    theme) and has an install identifier takes it: its install identifier
    goes to the package set and stays there, and from then on the name is
    in no wanted set, so that an entry of a later project that stands for
    it is passed over; it adds no package, logs nothing and changes no
    wanted set.  Packages are only ever added by taking a name: a project
    that changes a wanted set has put its install identifier in the package
    set, and a part of the catalog that leaves the wanted sets as they were
    leaves the package set as it was.  The diagnostics of [get_deps] are
    those of the names that the scan of the whole catalog left in the
    wanted sets, kind by kind. *)
Theorem matched_name_leaves_wanted :
  (∀ cfg theme project kind st entry_name n id,
     effective_name theme kind st.2 entry_name = Ok n →
     AStr n ∈ st.2 →
     install_name project = Some id →
     ∃ packages',
       scan_entry cfg theme project kind st entry_name
         = MkM [] (Ok (packages', st.2 ∖ {[AStr n]})) ∧
       AStr n ∉ st.2 ∖ {[AStr n]}) ∧
  (∀ cfg theme project packages wanted_plugins lg st',
     scan_kinds cfg theme project packages wanted_plugins = MkM lg (Ok st') →
     st'.2 ≠ wanted_plugins →
     ∃ id, install_name project = Some id ∧ id ∈ st'.1) ∧
  (∀ cfg theme projects st lg st',
     scan cfg theme projects st = MkM lg (Ok st') →
     ∀ i kind wanted,
       st.2 !! i = Some (kind, wanted) →
       ∃ wanted', st'.2 !! i = Some (kind, wanted') ∧ wanted' ⊆ wanted) ∧
  (∀ cfg theme projects1 projects2 st lg st',
     scan cfg theme (projects1 ++ projects2) st = MkM lg (Ok st') →
     ∃ st1 lg1 lg2,
       scan cfg theme projects1 st = MkM lg1 (Ok st1) ∧
       scan cfg theme projects2 st1 = MkM lg2 (Ok st') ∧
       lg = lg1 ++ lg2) ∧
  (∀ cfg theme project kind st entry_name n,
     effective_name theme kind st.2 entry_name = Ok n →
     AStr n ∉ st.2 →
     scan_entry cfg theme project kind st entry_name = MkM [] (Ok st)) ∧
  (∀ cfg theme projects1 project projects2 st lg st' st1 lg1 i kind wanted n id,
     scan cfg theme (projects1 ++ project :: projects2) st = MkM lg (Ok st') →
     scan cfg theme projects1 st = MkM lg1 (Ok st1) →
     st1.2 !! i = Some (kind, wanted) →
     AStr n ∈ wanted →
     install_name project = Some id →
     n ∈ _strings_decl (project_get project (projects_key kind)) ∨
     (∃ t, theme = VStr t ∧ projects_key kind = "mkdocs_plugin" ∧
           t +:+ "/" +:+ n
             ∈ _strings_decl (project_get project (projects_key kind)) ∧
           AStr (t +:+ "/" +:+ n) ∉ wanted) →
     ∃ lg2 st2 wanted2 lg3,
       scan_kinds cfg theme project st1.1 st1.2 = MkM lg2 (Ok st2) ∧
       st2.2 !! i = Some (kind, wanted2) ∧ (AStr n ∉ wanted2) ∧ id ∈ st2.1 ∧
       scan cfg theme projects2 st2 = MkM lg3 (Ok st') ∧
       id ∈ st'.1 ∧
       ∀ later1 later2 s lgs,
         projects2 = later1 ++ later2 →
         scan cfg theme later1 st2 = MkM lgs (Ok s) →
         ∃ w, s.2 !! i = Some (kind, w) ∧ (AStr n ∉ w) ∧
              ∀ later packages w' entry_name,
                w' ⊆ w →
                effective_name theme kind w' entry_name = Ok n →
                scan_entry cfg theme later kind (packages, w') entry_name
                  = MkM [] (Ok (packages, w'))) ∧
  (∀ cfg theme projects st lg st',
     scan cfg theme projects st = MkM lg (Ok st') →
     st'.2 = st.2 → st'.1 = st.1) ∧
  (∀ projects d lg r,
     get_deps projects (VDict d) = MkM lg (Ok r) →
     ∃ lg0 packages0 wanted0 lg1 st sorted_names,
       wanted_sets (VDict d) (config_theme (VDict d) d) = Ok wanted0 ∧
       scan (VDict d) (config_theme (VDict d) d) projects (packages0, wanted0)
         = MkM lg1 (Ok st) ∧
       lg = lg0 ++ lg1 ++ logged (report st.2) ∧
       Forall2 (λ kw names, names ≡ₚ elements kw.2) st.2 sorted_names ∧
       logged (report st.2) =
         concat (zip_with
                   (λ kw names,
                      names ≫= λ entry_name, logged (diagnose kw.1 entry_name))
                   st.2 sorted_names) ∧
       r = merge_sort String.le (elements st.1)).
Proof.
  split_and!.
  - intros cfg theme project kind st entry_name n id Hn Hin Hid.
    eexists. split.
    + rewrite (scan_entry_wanted _ _ _ _ _ _ _ _ n), Hid by done. reflexivity.
    + intros [_ Hne]%elem_of_difference. apply Hne. by apply elem_of_singleton.
  - intros cfg theme project packages wps lg st' H Hne.
    destruct (install_name project) as [id|] eqn:Hid.
    + exists id. split; [done|]. by eapply scan_kinds_changed.
    + apply scan_kinds_no_id in H as ->; done.
  - intros cfg theme projects st lg st' [_ Hs]%scan_inv i kind wanted Hi.
    destruct (Forall2_lookup_l _ _ _ _ _ Hs Hi) as ([kind' wanted'] & Hi' & Hk & Hsub).
    simpl in Hk, Hsub. subst kind'. eauto.
  - intros cfg theme ps1 ps2 st lg st'. unfold scan.
    by intros H%foldM_app.
  - intros cfg theme project kind st entry_name n. apply scan_entry_unwanted.
  - apply scan_first_match.
  - apply scan_same_wanted.
  - intros projects d lg r
      (lg0 & pk0 & w0 & lg1 & st & lg2 & _ & Hw & Hscan & Hrep & -> & ->)
      %get_deps_Ok_inv.
    pose proof Hrep as (nss & Hall & Hlg)%report_Ok_inv.
    exists lg0, pk0, w0, lg1, st, nss. rewrite Hrep. simpl.
    split_and!; [done.. | | done | done].
    eapply Forall2_impl; [exact Hall|].
    intros kw names Hs. by apply py_sorted_Ok in Hs as [? _].
Qed.

End first_match.

Lemma matched_name_leaves_wanted_witness :
  ∃ lg2 st2 wanted2 lg3,
    scan_kinds (λ _, "<object>") (λ _, "<project>") ex_cfg_x VNone
      (ex_project None (Some (One "x")) None (Some "first") None ∅)
      (∅ : gset string, [(plugin_kind, ({[AStr "x"]} : gset atom))]).1
      (∅ : gset string, [(plugin_kind, ({[AStr "x"]} : gset atom))]).2
      = MkM lg2 (Ok st2) ∧
    st2.2 !! 0 = Some (plugin_kind, wanted2) ∧ (AStr "x" ∉ wanted2) ∧
    "first" ∈ st2.1 ∧
    scan (λ _, "<object>") (λ _, "<project>") ex_cfg_x VNone
      [ex_project None (Some (One "x")) None (Some "second") None ∅] st2
      = MkM lg3 (Ok ({["first"]}, [(plugin_kind, ∅)])) ∧
    "first" ∈ ({["first"]} : gset string, [(plugin_kind, (∅ : gset atom))]).1 ∧
    ∀ later1 later2 s lgs,
      [ex_project None (Some (One "x")) None (Some "second") None ∅]
        = later1 ++ later2 →
      scan (λ _, "<object>") (λ _, "<project>") ex_cfg_x VNone later1 st2
        = MkM lgs (Ok s) →
      ∃ w, s.2 !! 0 = Some (plugin_kind, w) ∧ (AStr "x" ∉ w) ∧
           ∀ later packages w' entry_name,
             w' ⊆ w →
             effective_name (λ _, "<object>") VNone plugin_kind w' entry_name
               = Ok "x" →
             scan_entry (λ _, "<object>") (λ _, "<project>") ex_cfg_x VNone
               later plugin_kind (packages, w') entry_name
               = MkM [] (Ok (packages, w')).
Proof.
  destruct (matched_name_leaves_wanted ex_entry_points (λ _, "<object>")
              (λ _, "<project>") "'mkdocs.yml'")
    as (_ & _ & _ & _ & _ & Hfirst & _).
  apply (Hfirst ex_cfg_x VNone []
           (ex_project None (Some (One "x")) None (Some "first") None ∅)
           [ex_project None (Some (One "x")) None (Some "second") None ∅]
           (∅, [(plugin_kind, {[AStr "x"]})]) []
           ({["first"]}, [(plugin_kind, ∅)])
           (∅, [(plugin_kind, {[AStr "x"]})]) []
           0 plugin_kind {[AStr "x"]} "x" "first").
  - vm_compute. reflexivity.
  - reflexivity.
  - reflexivity.
  - by apply elem_of_singleton.
  - reflexivity.
  - left. left.
Defined.

(** ** The whole resolution, further *)

Lemma outcome_bind {A B} (m : M A) (f : A → M B) :
  outcome (m ≫= f) =
    match outcome m with
    | Ok a => outcome (f a)
    | Raise e => Raise e
    end.
Proof. unfold mbind, M_bind. by destruct (outcome m). Qed.

Lemma bind_Ok_intro {A B} (m : M A) (f : A → M B) l1 a l2 b :
  m = MkM l1 (Ok a) → f a = MkM l2 (Ok b) → m ≫= f = MkM (l1 ++ l2) (Ok b).
Proof. intros -> H. by rewrite bind_Ok, H. Qed.

Lemma outcome_bind_Raise {A B} (m : M A) (f : A → M B) e :
  outcome (m ≫= f) = Raise e →
  outcome m = Raise e ∨ ∃ a, outcome m = Ok a ∧ outcome (f a) = Raise e.
Proof.
  rewrite outcome_bind. destruct (outcome m) as [a|e'].
  - intros H. right. by exists a.
  - intros [= ->]. by left.
Qed.

Lemma foldM_raises {A S} (f : S → A → M S) (P : Prop) e l :
  (∀ s x, outcome (f s x) = Raise e → P) →
  ∀ s, outcome (foldM f s l) = Raise e → P.
Proof.
  intros Hf. induction l as [|x l IH]; intros s; simpl; [done|].
  intros [H | (s' & _ & H)]%outcome_bind_Raise; eauto.
Qed.

Lemma foldM_noop {A S} (f : S → A → M S) (s : S) (l : list A) :
  (∀ x, x ∈ l → f s x = MkM [] (Ok s)) → foldM f s l = MkM [] (Ok s).
Proof.
  induction l as [|x l IH]; intros Hf; simpl; [done|].
  rewrite (Hf x) by left. rewrite bind_Ok, IH; [done|].
  intros y Hy. apply Hf. by right.
Qed.

(** Every record of a monadic fold that returns was written by a step. *)
Lemma foldM_logged {A S} (P : log_record → Prop) (f : S → A → M S) l :
  (∀ s x lg s', x ∈ l → f s x = MkM lg (Ok s') → Forall P lg) →
  ∀ s lg s', foldM f s l = MkM lg (Ok s') → Forall P lg.
Proof.
  induction l as [|x l IH]; intros Hf s lg s' H; simpl in H.
  - apply ret_Ok_inv in H as [_ ->]. constructor.
  - apply bind_Ok_inv in H as (s1 & l1 & l2 & H1 & H2 & ->).
    apply Forall_app. split.
    + eapply Hf; [left | exact H1].
    + eapply IH; [|exact H2]. intros ? ? ? ? Hin. apply Hf. by right.
Qed.

Lemma report_outcome _entry_points wps :
  outcome (report _entry_points wps) = outcome (debug_wanted wps).
Proof.
  unfold report, debug_wanted. induction wps as [|kw wps IH]; [done|].
  simpl. rewrite !outcome_bind.
  destruct (py_sorted (elements kw.2)) as [names|e]; simpl; [|done].
  rewrite diagnose_loop. simpl. exact IH.
Qed.

(** *** The name of a kind *)

Lemma rpartition_last_none c s : contains c s = false → rpartition_last c s = s.
Proof.
  induction s as [|a s IH]; simpl; [done|].
  intros [Ha Hs]%orb_false_iff. by rewrite Hs, Ha.
Qed.

Lemma rpartition_last_app c s t :
  contains c t = false → rpartition_last c (s +:+ String c t) = t.
Proof.
  intros Ht. induction s as [|a s IH].
  - rewrite app_empty. simpl. by rewrite Ht, Ascii.eqb_refl.
  - rewrite app_cons. simpl. rewrite contains_app_r; [done|].
    simpl. by rewrite Ascii.eqb_refl.
Qed.

(** X12. A kind is named, in the messages, by the part of its catalog key
    after the last underscore, and by the whole key when it has none. *)
Theorem kind_str_suffix (prefix suffix entry_points_key : string) :
  contains "_" suffix = false →
  kind_str (PluginKind (prefix +:+ "_" +:+ suffix) entry_points_key) = suffix ∧
  kind_str (PluginKind suffix entry_points_key) = suffix.
Proof.
  intros Hs. unfold kind_str. simpl. split.
  - change ("_" +:+ suffix) with (String "_" suffix).
    by apply rpartition_last_app.
  - by apply rpartition_last_none.
Qed.

Section resolution_further.
Variable _entry_points : string → gmap string EntryPoint.
Variable repr : value → string.
Variable repr_project : Project → string.
Variable repr_config_file : string.

Local Abbreviation get_deps :=
  (get_deps _entry_points repr repr_project repr_config_file).
Local Abbreviation effective_name := (effective_name repr).
Local Abbreviation scan_entry := (scan_entry repr repr_project).
Local Abbreviation scan_kind := (scan_kind repr repr_project).
Local Abbreviation scan_kinds := (scan_kinds repr repr_project).
Local Abbreviation scan := (scan repr repr_project).
Local Abbreviation report := (report _entry_points).
Local Abbreviation diagnose := (diagnose _entry_points).
Local Abbreviation base_packages := (base_packages repr_config_file).
Local Abbreviation install_error := (install_error repr_project).

(** *** Where the packages of the result come from *)

Lemma base_packages_Ok_inv cfg d lg packages :
  base_packages cfg d = MkM lg (Ok packages) →
  (¬ has_marker d ∧ packages = ∅ ∧
   lg = [LogRecord WARNING ("The file " +:+ repr_config_file +:+
                              " doesn't seem to be a mkdocs.yml config file")]) ∨
  (has_marker d ∧ lg = [] ∧
   (packages = {["mkdocs"]} ∨ packages = {["mkdocs[i18n]"]})).
Proof.
  unfold base_packages.
  destruct (forallb _ _) eqn:Hm.
  - intros [= <- <-]. left. split; [|done].
    intros Hd%has_marker_forallb. congruence.
  - apply has_marker_forallb in Hm.
    destruct (negb _); intros [= <- <-]; right; auto.
Qed.

(** X13. Every package of the result has a source: it is the package of
    MkDocs itself, "mkdocs" or "mkdocs[i18n]", which needs a configuration
    with a marker key, or a project of the catalog provides it, as its
    install identifier or as one of its extra dependencies whose path is
    found in the configuration. *)
Theorem get_deps_result_provenance (projects : list Project)
    (d : gmap string value) (lg : list log_record) (r : list string)
    (x : string) :
  get_deps projects (VDict d) = MkM lg (Ok r) →
  x ∈ r →
  (has_marker d ∧ (x = "mkdocs" ∨ x = "mkdocs[i18n]")) ∨
  ∃ project, project ∈ projects ∧ provides (VDict d) project x.
Proof.
  intros (lg0 & pk0 & w0 & lg1 & st & lg2 & Hbase & _ & Hscan & _ & _ & ->)
    %get_deps_Ok_inv Hx%elem_of_sorted.
  apply scan_inv in Hscan as [[_ Hfrom] _]. simpl in Hfrom.
  destruct (Hfrom x Hx) as [Hx0|?]; [|by right]. left.
  apply base_packages_Ok_inv in Hbase
    as [(_ & -> & _) | (Hm & _ & [-> | ->])].
  - by apply elem_of_empty in Hx0.
  - apply elem_of_singleton in Hx0. auto.
  - apply elem_of_singleton in Hx0. auto.
Qed.

(** *** A configuration that asks for nothing *)

Lemma scan_nothing_wanted cfg theme projects packages wps :
  theme = VNone ∨ (∃ t, theme = VStr t) →
  Forall (λ kw : _PluginKind * gset atom, kw.2 = ∅) wps →
  scan cfg theme projects (packages, wps) = MkM [] (Ok (packages, wps)).
Proof.
  intros Htheme Hwps. unfold scan. apply foldM_noop. intros project _. simpl.
  induction Hwps as [|[kind wanted] wps Hkw _ IH]; simpl; [done|].
  simpl in Hkw. subst wanted.
  assert (scan_kind cfg theme project kind (packages, ∅)
            = MkM [] (Ok (packages, ∅))) as ->.
  { unfold scan_kind. apply foldM_noop. intros e _.
    destruct (effective_name_returns repr theme kind ∅ e Htheme) as [n Hn].
    apply (scan_entry_unwanted _ _ _ _ _ _ _ _ n); [done|].
    apply not_elem_of_empty. }
  rewrite bind_Ok. simpl. by rewrite IH.
Qed.

Lemma debug_wanted_nothing wps :
  Forall (λ kw : _PluginKind * gset atom, kw.2 = ∅) wps →
  debug_wanted wps = MkM [] (Ok tt).
Proof.
  intros Hwps. unfold debug_wanted. apply foldM_noop. intros kw Hkw.
  rewrite Forall_forall in Hwps. by rewrite (Hwps kw Hkw), elements_empty.
Qed.

Lemma report_nothing wps :
  Forall (λ kw : _PluginKind * gset atom, kw.2 = ∅) wps →
  report wps = MkM [] (Ok tt).
Proof.
  intros Hwps. unfold report. apply foldM_noop. intros kw Hkw.
  rewrite Forall_forall in Hwps. by rewrite (Hwps kw Hkw), elements_empty.
Qed.

(** With no name wanted, the catalog is not consulted: the result is the
    package of MkDocs, if any. *)
Lemma get_deps_nothing_wanted projects d wps :
  config_theme (VDict d) d = VNone ∨ (∃ t, config_theme (VDict d) d = VStr t) →
  wanted_sets (VDict d) (config_theme (VDict d) d) = Ok wps →
  Forall (λ kw : _PluginKind * gset atom, kw.2 = ∅) wps →
  get_deps projects (VDict d) =
    packages ← base_packages (VDict d) d;
    mret (merge_sort String.le (elements packages)).
Proof.
  intros Htheme Hw Hwps. unfold get_deps.
  destruct (base_packages (VDict d) d) as [lg0 [packages|e]]; [|done].
  rewrite !bind_Ok. rewrite Hw. unfold lift. rewrite bind_Ok.
  rewrite (debug_wanted_nothing _ Hwps), bind_Ok.
  rewrite (scan_nothing_wanted _ _ _ _ _ Htheme Hwps), bind_Ok. simpl.
  rewrite (report_nothing _ Hwps). done.
Qed.

Lemma no_names d key :
  partition "." key = (key, "") → d !! key = None →
  (l ← _strings (_dig (VDict d) key); py_set l) = Ok ∅.
Proof. intros Hkey Hd. by rewrite (_dig_segment d key Hkey), Hd. Qed.

(** X14. A document with none of the keys [site_name], [theme], [plugins],
    [markdown_extensions] resolves to no package at all, whatever the
    catalog holds: the only record is the warning that the file does not
    look like a configuration, and not even the package of MkDocs is
    returned. *)
Theorem get_deps_no_marker (projects : list Project) (d : gmap string value) :
  (∀ c, c ∈ markers → d !! c = None) →
  get_deps projects (VDict d) =
    MkM [LogRecord WARNING ("The file " +:+ repr_config_file +:+
                              " doesn't seem to be a mkdocs.yml config file")]
        (Ok []).
Proof.
  intros Hd.
  assert (d !! "theme" = None) as Ht.
  { apply Hd, list_elem_of_In. simpl. tauto. }
  assert (d !! "plugins" = None) as Hp.
  { apply Hd, list_elem_of_In. simpl. tauto. }
  assert (d !! "markdown_extensions" = None) as He.
  { apply Hd, list_elem_of_In. simpl. tauto. }
  assert (config_theme (VDict d) d = VNone) as Hth.
  { unfold config_theme. simpl. by rewrite Ht. }
  rewrite (get_deps_nothing_wanted projects d
             [(theme_kind, ∅); (plugin_kind, ∅); (extension_kind, ∅)]).
  - unfold base_packages.
    assert (forallb (λ c, bool_decide (d !! c = None)) markers = true) as ->.
    { apply forallb_forall. intros c Hc%list_elem_of_In.
      by apply bool_decide_eq_true, Hd. }
    unfold mbind, M_bind, log, mret, M_ret. simpl. by rewrite elements_empty.
  - by left.
  - rewrite Hth. unfold wanted_sets. simpl.
    rewrite (no_names d "plugins" eq_refl Hp).
    rewrite (no_names d "markdown_extensions" eq_refl He). simpl.
    by rewrite !empty_difference_L.
  - repeat constructor.
Qed.

Lemma builtin_theme_set theme :
  theme = VNone ∨
  (∃ t, theme = VStr t ∧ (t = "" ∨ t = "mkdocs" ∨ t = "readthedocs")) →
  ∃ themes : gset atom,
    (if truthy theme then a ← py_hash theme; Ok {[a]} else Ok ∅) = Ok themes ∧
    themes ∖ {[AStr "mkdocs"; AStr "readthedocs"]} = ∅.
Proof.
  intros [-> | (t & -> & [-> | [-> | ->]])].
  - exists ∅. split; [done | apply empty_difference_L].
  - exists ∅. split; [done | apply empty_difference_L].
  - exists {[AStr "mkdocs"]}. split; [done|].
    apply elem_of_equiv_empty_L. intros a [Ha Hne]%elem_of_difference.
    apply Hne, elem_of_union. by left.
  - exists {[AStr "readthedocs"]}. split; [done|].
    apply elem_of_equiv_empty_L. intros a [Ha Hne]%elem_of_difference.
    apply Hne, elem_of_union. by right.
Qed.

(** X15. A configuration that asks only for what MkDocs ships (no theme or
    one of the themes "mkdocs" and "readthedocs", no plugin but "search",
    no extension) resolves to the package of MkDocs alone and logs nothing,
    whatever the catalog holds: the built-in names are never looked up. *)
Theorem get_deps_only_builtins (projects : list Project)
    (d : gmap string value) :
  has_marker d →
  (config_theme (VDict d) d = VNone ∨
   ∃ t, config_theme (VDict d) d = VStr t ∧
        (t = "" ∨ t = "mkdocs" ∨ t = "readthedocs")) →
  (∀ a, d !! "plugins" = Some (VAtom a) → ∃ s, a = AStr s) →
  (∀ s, names_in (d !! "plugins") s → s = "search") →
  (∀ a, d !! "markdown_extensions" = Some (VAtom a) → ∃ s, a = AStr s) →
  (∀ s, ¬ names_in (d !! "markdown_extensions") s) →
  (locale_selects_i18n (VDict d) →
     get_deps projects (VDict d) = MkM [] (Ok ["mkdocs[i18n]"])) ∧
  (¬ locale_selects_i18n (VDict d) →
     get_deps projects (VDict d) = MkM [] (Ok ["mkdocs"])).
Proof.
  intros Hm Htheme Hpscalar Hponly Hescalar Henone.
  destruct (builtin_theme_set _ Htheme) as (themes & Ht & Hts).
  destruct (names_returns d "plugins" eq_refl Hpscalar) as (plugins & Hp & _).
  destruct (names_returns d "markdown_extensions" eq_refl Hescalar)
    as (exts & He & _).
  assert (plugins ∖ {[AStr "search"]} = ∅) as Hps.
  { apply elem_of_equiv_empty_L. intros a [Ha Hne]%elem_of_difference.
    apply (names_requested d "plugins" plugins _ eq_refl Hp) in Ha as (s & -> & Hs).
    apply Hponly in Hs as ->. by apply Hne, elem_of_singleton. }
  assert (exts = ∅) as ->.
  { apply elem_of_equiv_empty_L. intros a Ha.
    apply (names_requested d "markdown_extensions" exts _ eq_refl He) in Ha
      as (s & -> & Hs).
    by apply Henone in Hs. }
  assert (get_deps projects (VDict d) =
            packages ← base_packages (VDict d) d;
            mret (merge_sort String.le (elements packages))) as ->.
  { apply (get_deps_nothing_wanted projects d
             [(theme_kind, ∅); (plugin_kind, ∅); (extension_kind, ∅)]).
    - destruct Htheme as [? | (t & ? & _)]; eauto.
    - unfold wanted_sets. rewrite Ht, Hp, He. simpl. by rewrite Hts, Hps.
    - repeat constructor. }
  destruct (base_packages_marked repr_config_file (VDict d) d Hm) as [Hyes Hno].
  split; intros Hl.
  - rewrite (Hyes Hl), bind_Ok. simpl. by rewrite elements_singleton.
  - rewrite (Hno Hl), bind_Ok. simpl. by rewrite elements_singleton.
Qed.

(** *** A theme that cannot be a member of a set *)

Lemma config_theme_found d :
  config_theme (VDict d) d ≠ VNone → d !! "theme" ≠ None.
Proof.
  unfold config_theme. simpl. intros Hne Ht. rewrite Ht in Hne. by apply Hne.
Qed.

Lemma base_packages_silent cfg d :
  has_marker d → ∃ packages, base_packages cfg d = MkM [] (Ok packages).
Proof.
  intros Hm%has_marker_forallb. unfold base_packages. rewrite Hm.
  destruct (negb _); eauto.
Qed.

(** X16. When the theme of the configuration is a sequence or a mapping that
    is not empty (the value of [theme.name], or the value of [theme] itself
    when it has no [name]), [get_deps] raises [TypeError] before the catalog
    is read and without a record: [{theme}] needs a hashable theme.  An
    empty sequence or mapping is falsy and gives the empty set instead. *)
Theorem get_deps_unhashable_theme (projects : list Project)
    (d : gmap string value) :
  (∃ l, config_theme (VDict d) d = VList l ∧ l ≠ []) ∨
  (∃ m, config_theme (VDict d) d = VDict m ∧ m ≠ ∅) →
  wanted_sets (VDict d) (config_theme (VDict d) d) = Raise TypeError ∧
  get_deps projects (VDict d) = MkM [] (Raise TypeError).
Proof.
  intros Htheme.
  assert (wanted_sets (VDict d) (config_theme (VDict d) d) = Raise TypeError)
    as Hw.
  { unfold wanted_sets.
    destruct Htheme as [(l & -> & Hl) | (m & -> & Hm)]; simpl.
    - by rewrite bool_decide_eq_false_2.
    - by rewrite bool_decide_eq_false_2. }
  split; [done|].
  assert (has_marker d) as Hm.
  { exists "theme". split; [apply list_elem_of_In; simpl; tauto|].
    apply config_theme_found.
    destruct Htheme as [(l & -> & _) | (m & -> & _)]; done. }
  destruct (base_packages_silent (VDict d) d Hm) as [packages Hb].
  unfold get_deps. rewrite Hb, bind_Ok. simpl. by rewrite Hw.
Qed.

(** *** The records of the log *)

Lemma foldM_entries_logged cfg theme project kind l st lg st' :
  foldM (scan_entry cfg theme project kind) st l = MkM lg (Ok st') →
  Forall (λ rec, install_name project = None ∧
                 ∃ n, AStr n ∈ st.2 ∧
                      rec = LogRecord ERROR (install_error kind n project)) lg.
Proof.
  revert st lg. induction l as [|e l IH]; intros st lg H; simpl in H.
  - apply ret_Ok_inv in H as [_ ->]. constructor.
  - apply bind_Ok_inv in H as (s1 & l1 & l2 & H1 & H2 & ->).
    apply Forall_app. split.
    + apply scan_entry_cases in H1
        as (n & _ & [(_ & _ & ->) | [(Hin & Hid & _ & ->) | (_ & -> & _)]]);
        [constructor | | constructor].
      repeat constructor; eauto.
    + apply scan_entry_inv in H1 as [_ Hsub]. apply IH in H2.
      eapply Forall_impl; [exact H2|]. simpl.
      intros rec (Hid & n & Hn & ->). split; [done|]. exists n. split; [|done].
      by apply Hsub.
Qed.

Lemma scan_kinds_logged cfg theme project packages wps lg st' :
  scan_kinds cfg theme project packages wps = MkM lg (Ok st') →
  Forall (λ rec, install_name project = None ∧
                 ∃ kind wanted n,
                   (kind, wanted) ∈ wps ∧ AStr n ∈ wanted ∧
                   rec = LogRecord ERROR (install_error kind n project)) lg.
Proof.
  revert packages lg st'. induction wps as [|[kind wanted] wps IH];
    intros packages lg st' H; simpl in H.
  - apply ret_Ok_inv in H as [_ ->]. constructor.
  - apply bind_Ok_inv in H as (s1 & l1 & l2 & H1 & H & ->).
    apply bind_Ok_inv in H as (s2 & l3 & l4 & H2 & [_ ->]%ret_Ok_inv & ->).
    rewrite app_nil_r. apply Forall_app. split.
    + unfold scan_kind in H1. apply foldM_entries_logged in H1.
      eapply Forall_impl; [exact H1|]. simpl.
      intros rec (Hid & n & Hn & ->). split; [done|].
      exists kind, wanted, n. split_and!; [left | done..].
    + apply IH in H2. eapply Forall_impl; [exact H2|]. simpl.
      intros rec (Hid & k & w & n & Hin & Hn & ->). split; [done|].
      exists k, w, n. split_and!; [by right | done..].
Qed.

Lemma shrinks_elem_of wps wps' kind wanted' :
  shrinks wps wps' → (kind, wanted') ∈ wps' →
  ∃ wanted, (kind, wanted) ∈ wps ∧ wanted' ⊆ wanted.
Proof.
  intros Hs (i & Hi)%list_elem_of_lookup.
  destruct (Forall2_lookup_r _ _ _ _ _ Hs Hi) as ([k w] & Hi0 & Hk & Hsub).
  simpl in Hk, Hsub. subst k. exists w. split; [|done].
  apply list_elem_of_lookup. eauto.
Qed.

Lemma scan_logged cfg theme projects st lg st' :
  scan cfg theme projects st = MkM lg (Ok st') →
  Forall (λ rec, ∃ project kind wanted n,
                   project ∈ projects ∧ install_name project = None ∧
                   (kind, wanted) ∈ st.2 ∧ AStr n ∈ wanted ∧
                   rec = LogRecord ERROR (install_error kind n project)) lg.
Proof.
  unfold scan. revert st lg.
  induction projects as [|p ps IH]; intros st lg H; simpl in H.
  - apply ret_Ok_inv in H as [_ ->]. constructor.
  - apply bind_Ok_inv in H as (s1 & l1 & l2 & H1 & H2 & ->).
    apply Forall_app. split.
    + apply scan_kinds_logged in H1. eapply Forall_impl; [exact H1|]. simpl.
      intros rec (Hid & k & w & n & Hin & Hn & ->).
      exists p, k, w, n. split_and!; [left | done..].
    + apply scan_kinds_inv in H1 as [_ Hs]. apply IH in H2.
      eapply Forall_impl; [exact H2|]. simpl.
      intros rec (q & k & w' & n & Hq & Hid & Hin & Hn & ->).
      destruct (shrinks_elem_of _ _ _ _ Hs Hin) as (w & Hw & Hsub).
      exists q, k, w, n. split_and!; [by right | done.. | by apply Hsub | done].
Qed.

Lemma diagnose_level kind entry_name :
  Forall (λ rec, levelname rec = INFO ∨ levelname rec = WARNING)
         (logged (diagnose kind entry_name)).
Proof.
  unfold diagnose.
  destruct (match entry_name with AStr _ => _ | _ => _ end) as [ep|];
    cbv zeta; destruct (bool_decide _); simpl;
    first [ apply Forall_nil_2
          | apply Forall_cons_2; [simpl; auto | apply Forall_nil_2] ].
Qed.

Lemma report_level wps lg :
  report wps = MkM lg (Ok tt) →
  Forall (λ rec, levelname rec = INFO ∨ levelname rec = WARNING) lg.
Proof.
  intros (nss & _ & ->)%report_Ok_inv.
  apply Forall_concat, Forall_forall. intros l Hl.
  apply list_elem_of_lookup in Hl as [i Hi].
  apply lookup_zip_with_Some in Hi as (kw & names & -> & _ & _).
  apply Forall_bind, Forall_true. intros n. apply diagnose_level.
Qed.

(** X17. The ERROR records of a call that returns all come from the scan of
    the catalog: each says that a name wanted for one of the three kinds
    was identified as a project of the catalog that has neither [pypi_id]
    nor [github_id].  With a catalog whose projects all have an install
    identifier, no ERROR is logged. *)
Theorem get_deps_error_records (projects : list Project)
    (d : gmap string value) (lg : list log_record) (r : list string)
    (rec : log_record) :
  get_deps projects (VDict d) = MkM lg (Ok r) →
  rec ∈ lg →
  levelname rec = ERROR →
  ∃ wanted_plugins project kind wanted n,
    wanted_sets (VDict d) (config_theme (VDict d) d) = Ok wanted_plugins ∧
    (kind, wanted) ∈ wanted_plugins ∧ AStr n ∈ wanted ∧
    project ∈ projects ∧ install_name project = None ∧
    message rec = install_error kind n project.
Proof.
  intros (lg0 & pk0 & w0 & lg1 & st & lg2 & Hbase & Hw & Hscan & Hrep & -> & _)
    %get_deps_Ok_inv Hin Hlevel.
  apply elem_of_app in Hin as [Hin | [Hin | Hin]%elem_of_app].
  - apply base_packages_Ok_inv in Hbase as [(_ & _ & ->) | (_ & -> & _)].
    + apply list_elem_of_singleton in Hin as ->. discriminate.
    + by apply elem_of_nil in Hin.
  - apply scan_logged in Hscan. rewrite Forall_forall in Hscan.
    destruct (Hscan rec Hin) as (p & k & w & n & Hp & Hid & Hk & Hn & ->).
    exists w0, p, k, w, n. done.
  - apply report_level in Hrep. rewrite Forall_forall in Hrep.
    destruct (Hrep rec Hin) as [Hl | Hl]; congruence.
Qed.

(** *** The sets of wanted names *)




(** *** The order of the diagnostics *)

Lemma mapM_atom_str_fmap (ss : list string) :
  mapM atom_str (AStr <$> ss) = Some ss.
Proof.
  apply mapM_Some. induction ss as [|s ss IH]; constructor; done.
Qed.

Lemma omap_atom_str_fmap (ss : list string) : omap atom_str (AStr <$> ss) = ss.
Proof. induction ss as [|s ss IH]; [done|]. simpl. f_equal. exact IH. Qed.

Lemma all_strs (l : list atom) :
  Forall (λ a, ∃ s, a = AStr s) l → ∃ ss, l = AStr <$> ss.
Proof.
  induction 1 as [|a l [s ->] _ [ss ->]]; [by exists [] | by exists (s :: ss)].
Qed.

Lemma py_sorted_strs (ss : list string) :
  py_sorted (AStr <$> ss) = Ok (AStr <$> merge_sort String.le ss).
Proof.
  destruct ss as [|a [|b ss]]; [done..|].
  unfold py_sorted. rewrite !fmap_cons, <- !fmap_cons.
  by rewrite mapM_atom_str_fmap.
Qed.

(** X19. The names of a wanted set are reported in an order that does not
    depend on the order in which the set is iterated: two enumerations of
    the same names, all strings, are sorted to the same sequence. *)
Theorem py_sorted_order_independent (l1 l2 : list atom) :
  Forall (λ a, ∃ s, a = AStr s) l1 →
  l1 ≡ₚ l2 →
  py_sorted l1 = py_sorted l2 ∧
  ∃ names, py_sorted l1 = Ok names ∧ names ≡ₚ l1 ∧ Sorted atom_le names.
Proof.
  intros Hstr Hperm.
  assert (Forall (λ a, ∃ s, a = AStr s) l2) as Hstr2 by by rewrite <- Hperm.
  apply all_strs in Hstr as [ss1 ->]. apply all_strs in Hstr2 as [ss2 ->].
  assert (ss1 ≡ₚ ss2) as Hss.
  { rewrite <- (omap_atom_str_fmap ss1), <- (omap_atom_str_fmap ss2).
    by rewrite Hperm. }
  split.
  - rewrite !py_sorted_strs. do 2 f_equal.
    apply (Sorted_unique String.le).
    + apply Sorted_merge_sort; apply _.
    + apply Sorted_merge_sort; apply _.
    + by rewrite !merge_sort_Permutation.
  - eexists. split; [apply py_sorted_strs|]. by apply py_sorted_Ok, py_sorted_strs.
Qed.

(** *** What is wanted and known gets installed *)

(** X20. What [get_deps] is for: when a name is wanted for a kind and a
    project of the catalog that has an install identifier declares that
    name for the kind, the result holds the install identifier of a project
    that declares the name for that kind, as it is or behind a prefix (the
    first such project in catalog order takes the name, so it need not be
    the given one). *)
Theorem get_deps_installs_wanted (projects : list Project)
    (d : gmap string value) (lg : list log_record) (r : list string)
    (wanted_plugins : list (_PluginKind * gset atom))
    (kind : _PluginKind) (wanted : gset atom) (n : string)
    (project : Project) :
  get_deps projects (VDict d) = MkM lg (Ok r) →
  wanted_sets (VDict d) (config_theme (VDict d) d) = Ok wanted_plugins →
  (kind, wanted) ∈ wanted_plugins →
  AStr n ∈ wanted →
  project ∈ projects →
  install_name project ≠ None →
  n ∈ _strings_decl (project_get project (projects_key kind)) →
  ∃ project' id entry_name pre,
    project' ∈ projects ∧ install_name project' = Some id ∧ id ∈ r ∧
    entry_name ∈ _strings_decl (project_get project' (projects_key kind)) ∧
    entry_name = pre +:+ n.
Proof.
  intros (lg0 & pk0 & w0 & lg1 & st & lg2 & _ & Hw & Hscan & _ & _ & ->)
    %get_deps_Ok_inv Hw' Hkind Hn Hp Hid Hdecl.
  rewrite Hw in Hw'. injection Hw' as ->.
  apply list_elem_of_lookup in Hkind as [i Hi].
  pose proof Hscan as [_ Hshr]%scan_inv.
  destruct (Forall2_lookup_l _ _ _ _ _ Hshr Hi) as ([k wanted'] & Hi' & Hk & _).
  simpl in Hk. subst k.
  assert (AStr n ∉ wanted') as Hgone.
  { destruct (scan_wanted_chain _ _ _ _ _ _ _ _ _ _ _ Hscan Hi)
      as (w' & Hi2 & Hchain).
    rewrite Hi' in Hi2. injection Hi2 as <-.
    by eapply wanted_chain_declared_gone. }
  destruct (scan_removed_installed _ _ _ _ _ _ _ _ _ _ _ _ _ Hscan Hi Hi' Hn Hgone)
    as (q & id & e & pre & n' & Hq & Hqid & Hin & He & [= <-] & ->).
  exists q, id, (pre +:+ n), pre. split_and!; [done.. | | done | done].
  by apply elem_of_sorted.
Qed.

(** *** The exceptions *)

Lemma py_len_raises v e : py_len v = Raise e → e = TypeError.
Proof. destruct v as [[| | |]| |]; simpl; congruence. Qed.

Lemma py_sorted_raises l e : py_sorted l = Raise e → e = TypeError.
Proof.
  unfold py_sorted. destruct l as [|a [|b l]]; [done..|].
  destruct (mapM atom_str _); [done|]. destruct (mapM atom_num _); congruence.
Qed.

(** X21. Matching a declared name raises in one case only: [len(theme)] of a
    theme that is a number or a boolean, reached when the kind is plugin
    and the declared name starts with the rendering of the theme and a
    slash.  The exception is [TypeError]. *)
Theorem effective_name_raises (theme : value) (kind : _PluginKind)
    (wanted : gset atom) (entry_name : string) (e : exn) :
  effective_name theme kind wanted entry_name = Raise e ↔
  e = TypeError ∧ projects_key kind = "mkdocs_plugin" ∧
  ∃ a rest, theme = VAtom a ∧ a ≠ ANone ∧ (∀ s, a ≠ AStr s) ∧
            entry_name = str_of_atom a +:+ "/" +:+ rest.
Proof.
  unfold effective_name. split.
  - destruct (_ && _) eqn:Hcond; [|done].
    apply andb_true_iff in Hcond as [Hcond Hstart].
    apply andb_true_iff in Hcond as [Hcond Hkind].
    apply andb_true_iff in Hcond as [_ Hnone].
    apply String.eqb_eq in Hkind.
    apply startswith_app in Hstart as [rest ->].
    destruct (py_len theme) as [n|e'] eqn:Hlen; simpl.
    { by destruct (_ && _). }
    intros [= ->]. apply py_len_raises in Hlen as Heq. split; [done|].
    split; [done|].
    destruct theme as [a| |]; [|done..]. exists a, rest.
    split_and!; [done | by intros -> | by intros s -> |].
    simpl. by rewrite app_assoc_str.
  - intros (-> & Hkind & a & rest & -> & Hnone & Hstr & ->).
    assert (contains "/" (str_of_atom a +:+ "/" +:+ rest) = true) as ->.
    { apply contains_app_r. simpl. done. }
    assert (negb (is_None (VAtom a)) = true) as ->.
    { destruct a; try done. }
    rewrite Hkind.
    assert (startswith (str_of_atom a +:+ "/" +:+ rest)
              (py_str repr (VAtom a) +:+ "/") = true) as ->.
    { apply startswith_app. exists rest. simpl. by rewrite app_assoc_str. }
    simpl. destruct a as [| | |s]; try done. by destruct (Hstr s).
Qed.

Lemma effective_name_TypeError theme kind wanted entry_name e :
  effective_name theme kind wanted entry_name = Raise e → e = TypeError.
Proof.
  unfold effective_name. destruct (_ && _); [|done].
  destruct (py_len theme) as [n|e'] eqn:Hlen; simpl.
  - by destruct (_ && _).
  - intros [= <-]. by apply py_len_raises in Hlen.
Qed.

Lemma scan_raises cfg theme projects st e :
  outcome (scan cfg theme projects st) = Raise e → e = TypeError.
Proof.
  unfold scan. revert st. apply foldM_raises. intros [packages wps] project.
  simpl. revert packages.
  induction wps as [|[kind wanted] wps IH]; intros packages; simpl; [done|].
  intros [H | (st1 & _ & [H | (st2 & _ & H)]%outcome_bind_Raise)]
    %outcome_bind_Raise; [| by eapply IH | done].
  revert H. unfold scan_kind. apply foldM_raises. intros s x.
  unfold scan_entry.
  intros [H | (n & _ & H)]%outcome_bind_Raise.
  - by apply effective_name_TypeError in H.
  - destruct (bool_decide _); [|done]. by destruct (install_name project).
Qed.

Lemma debug_wanted_raises wps e :
  outcome (debug_wanted wps) = Raise e → e = TypeError.
Proof.
  unfold debug_wanted. apply foldM_raises. intros [] kw.
  intros [H | (names & _ & H)]%outcome_bind_Raise; [|done].
  by apply py_sorted_raises in H.
Qed.

Lemma wanted_sets_raises cfg theme e :
  wanted_sets cfg theme = Raise e → e = TypeError.
Proof.
  unfold wanted_sets.
  destruct (if truthy theme then _ else _) as [themes|e0] eqn:Ht; simpl.
  - destruct (l ← _strings (_dig cfg "plugins"); py_set l) as [p|e1] eqn:Hp;
      simpl.
    + destruct (l ← _strings (_dig cfg "markdown_extensions"); py_set l)
        as [x|e2] eqn:He; simpl; [done|].
      intros [= <-]. by apply names_raises in He.
    + intros [= <-]. by apply names_raises in Hp.
  - intros [= <-]. destruct (truthy theme); [|done].
    destruct (py_hash theme) eqn:Hh; [done|]. simpl in Ht.
    injection Ht as <-. by apply py_hash_raises in Hh.
Qed.

(** X22. From the parsed configuration and the parsed projects on,
    [get_deps] raises two exceptions only: [ValueError], without a record,
    exactly when the configuration is not a mapping, and [TypeError] from a
    configuration that is a mapping (an unhashable theme, a scalar where
    names are expected, names that cannot be sorted, the length of a theme
    that has none).  No [KeyError] escapes: a key missing from the
    configuration or from a project is never an error. *)
Theorem get_deps_raises (projects : list Project) (cfg : value) (e : exn) :
  outcome (get_deps projects cfg) = Raise e →
  (e = ValueError ∧ (∀ d, cfg ≠ VDict d) ∧
   get_deps projects cfg = MkM [] (Raise ValueError)) ∨
  (e = TypeError ∧ ∃ d, cfg = VDict d).
Proof.
  destruct cfg as [a|l|d].
  - intros [= <-]. by left.
  - intros [= <-]. by left.
  - intros H. right. split; [|by exists d]. unfold get_deps in H.
    apply outcome_bind_Raise in H as [H | (packages & _ & H)].
    { unfold base_packages in H. destruct (forallb _ _); [done|].
      by destruct (negb _). }
    apply outcome_bind_Raise in H as [H | (wps & _ & H)].
    { by apply wanted_sets_raises in H. }
    apply outcome_bind_Raise in H as [H | ([] & _ & H)].
    { by apply debug_wanted_raises in H. }
    apply outcome_bind_Raise in H as [H | (st & _ & H)].
    { by apply scan_raises in H. }
    apply outcome_bind_Raise in H as [H | ([] & _ & H)]; [|done].
    rewrite report_outcome in H. by apply debug_wanted_raises in H.
Qed.

(** *** A longer catalog *)

Lemma py_sorted_subseteq (X Y : gset atom) names :
  Y ⊆ X → py_sorted (elements X) = Ok names →
  ∃ names', py_sorted (elements Y) = Ok names'.
Proof.
  intros Hsub HX.
  assert (length (elements Y) ≤ length (elements X)) as Hlen.
  { by apply (subseteq_size Y X). }
  assert (∀ P : atom → Prop, Forall P (elements X) → Forall P (elements Y))
    as Hall.
  { intros P HP. rewrite Forall_forall in HP. apply Forall_forall.
    intros a Ha%elem_of_elements. by apply HP, elem_of_elements, Hsub. }
  unfold py_sorted in *.
  destruct (elements Y) as [|a [|b l]] eqn:HY; [eauto..|].
  destruct (elements X) as [|a' [|b' l']] eqn:HX'; [simpl in Hlen; lia..|].
  destruct (mapM atom_str (a' :: b' :: l')) as [ss|] eqn:Hstr.
  - destruct (mapM_is_Some_2 atom_str (a :: b :: l)) as [ss' ->]; [|eauto].
    apply Hall, mapM_is_Some_1. by rewrite Hstr.
  - destruct (mapM atom_num (a' :: b' :: l')) as [ns|] eqn:Hnum; [|done].
    destruct (mapM atom_str (a :: b :: l)); [eauto|].
    destruct (mapM_is_Some_2 atom_num (a :: b :: l)) as [ns' ->]; [|eauto].
    apply Hall, mapM_is_Some_1. by rewrite Hnum.
Qed.

Lemma debug_wanted_shrinks wps wps' :
  shrinks wps wps' →
  outcome (debug_wanted wps) = Ok tt → outcome (debug_wanted wps') = Ok tt.
Proof.
  unfold debug_wanted.
  induction 1 as [|kw kw' wps wps' [_ Hsub] _ IH]; [done|].
  simpl. rewrite !outcome_bind.
  destruct (py_sorted (elements kw.2)) as [names|] eqn:Hs; simpl; [|done].
  destruct (py_sorted_subseteq _ _ _ Hsub Hs) as [names' ->]. simpl. exact IH.
Qed.

(** X23. Projects added at the end of the catalog take no package away: when
    [get_deps] returns with the longer catalog it returns with the shorter
    one, and every package of the shorter result is in the longer one.
    (Projects added in front can replace packages, since the first project
    that matches a name takes it.) *)
Theorem get_deps_catalog_append (projects projects' : list Project)
    (d : gmap string value) (lg' : list log_record) (r' : list string) :
  get_deps (projects ++ projects') (VDict d) = MkM lg' (Ok r') →
  ∃ lg r, get_deps projects (VDict d) = MkM lg (Ok r) ∧
          ∀ x, x ∈ r → x ∈ r'.
Proof.
  intros H. unfold get_deps in H.
  apply bind_Ok_inv in H as (pk0 & lg0 & lg0' & Hbase & H & _).
  apply bind_Ok_inv in H as (w0 & l1 & l1' & [Hw _]%lift_Ok_inv & H & _).
  apply bind_Ok_inv in H as ([] & l2 & l2' & Hdebug & H & _).
  apply bind_Ok_inv in H as (st & l3 & l3' & Hscan & H & _).
  apply bind_Ok_inv in H as ([] & l4 & l4' & _ & [<- _]%ret_Ok_inv & _).
  apply foldM_app in Hscan as (st1 & lg1 & lg2 & Hscan1 & Hscan2 & _).
  pose proof (scan_inv repr repr_project _ _ _ _ _ _ Hscan1) as [_ Hshr].
  pose proof (scan_inv repr repr_project _ _ _ _ _ _ Hscan2) as [[Hsub _] _].
  assert (outcome (report st1.2) = Ok tt) as Hrep.
  { rewrite report_outcome. apply (debug_wanted_shrinks w0); [done|].
    by rewrite Hdebug. }
  eexists _, (merge_sort String.le (elements st1.1)). split.
  - unfold get_deps.
    eapply bind_Ok_intro; [exact Hbase|].
    eapply bind_Ok_intro; [by rewrite Hw|].
    eapply bind_Ok_intro; [exact Hdebug|].
    eapply bind_Ok_intro; [exact Hscan1|].
    eapply bind_Ok_intro; [|reflexivity].
    rewrite (M_eta (report st1.2)), Hrep. reflexivity.
  - intros x Hx%elem_of_sorted. by apply elem_of_sorted, Hsub.
Qed.

End resolution_further.

(** *** What the local installation can change *)

(** X24. What is installed locally changes the diagnostics only: whether
    [get_deps] returns or raises, and the packages it returns, are the same
    for every set of local entry points. *)
Theorem get_deps_ignores_entry_points
    (_entry_points1 _entry_points2 : string → gmap string EntryPoint)
    (repr : value → string) (repr_project : Project → string)
    (repr_config_file : string) (projects : list Project) (cfg : value) :
  outcome (get_deps _entry_points1 repr repr_project repr_config_file
             projects cfg) =
  outcome (get_deps _entry_points2 repr repr_project repr_config_file
             projects cfg).
Proof.
  destruct cfg as [a|l|d]; [done..|]. unfold get_deps.
  rewrite !(outcome_bind (base_packages _ _ _)).
  destruct (outcome (base_packages _ _ _)) as [packages|]; [|done].
  rewrite !(outcome_bind (lift _)).
  destruct (outcome (lift _)) as [wps|]; [|done].
  rewrite !(outcome_bind (debug_wanted _)).
  destruct (outcome (debug_wanted _)) as [[]|]; [|done].
  rewrite !(outcome_bind (scan _ _ _ _ _ _)).
  destruct (outcome (scan _ _ _ _ _ _)) as [st|]; [|done].
  rewrite !(outcome_bind (report _ _)), !report_outcome.
  by destruct (outcome (debug_wanted _)).
Qed.

(** ** The further properties at work *)

Lemma effective_name_is_declared_or_wanted_suffix_witness :
  "tags" = "material/tags" ∨
  (projects_key plugin_kind = "mkdocs_plugin" ∧
   AStr "tags" ∈ ({[AStr "tags"]} : gset atom) ∧
   (AStr "material/tags" ∉ ({[AStr "tags"]} : gset atom)) ∧
   ∃ pre, "material/tags" = pre +:+ "tags").
Proof.
  apply (effective_name_is_declared_or_wanted_suffix (λ _, "<object>")
           (VStr "material") plugin_kind {[AStr "tags"]} "material/tags" "tags").
  vm_compute. reflexivity.
Defined.

Lemma scan_matches_every_declared_name_witness :
  ex_project None (Some (One "x")) None (Some "second") None ∅
    ∈ ex_catalog_twice ∧
  AStr "x" ∉ (∅ : gset atom).
Proof.
  split.
  - right. left.
  - apply (scan_matches_every_declared_name (λ _, "<object>") (λ _, "<project>")
             ex_cfg_x VNone ex_catalog_twice
             (∅, [(plugin_kind, {[AStr "x"]})])
             ({["first"]}, [(plugin_kind, ∅)]) []
             (ex_project None (Some (One "x")) None (Some "second") None ∅)
             0 plugin_kind ∅ "x").
    + vm_compute. reflexivity.
    + right. left.
    + discriminate.
    + reflexivity.
    + left.
Defined.

Lemma scan_matches_theme_namespaced_name_witness :
  ∃ wanted',
    ({["mkdocs-material"]} : gset string, [(plugin_kind, (∅ : gset atom))]).2 !! 0
      = Some (plugin_kind, wanted') ∧
    AStr "tags" ∉ wanted'.
Proof.
  apply (scan_matches_theme_namespaced_name (λ _, "<object>") (λ _, "<project>")
           ex_cfg_theme_precedence "material" ex_catalog
           (∅, [(plugin_kind, {[AStr "tags"]})])
           ({["mkdocs-material"]}, [(plugin_kind, ∅)]) []
           (ex_project (Some (One "material"))
                       (Some (Many ["material/search"; "material/tags"])) None
                       (Some "mkdocs-material") None ∅)
           0 plugin_kind {[AStr "tags"]} "tags").
  - vm_compute. reflexivity.
  - reflexivity.
  - reflexivity.
  - left.
  - discriminate.
  - right. left.
  - intros [=]%elem_of_singleton.
Defined.

Lemma scan_plain_kind_leaves_undeclared_witness :
  ∃ wanted',
    ({["first"]} : gset string, [(plugin_kind, (∅ : gset atom))]).2 !! 0
      = Some (plugin_kind, wanted') ∧
    ∀ a, a ∈ wanted' ↔
         a ∈ ({[AStr "x"]} : gset atom) ∧
         ¬ declared_installable ex_catalog_twice plugin_kind a.
Proof.
  apply (scan_plain_kind_leaves_undeclared (λ _, "<object>") (λ _, "<project>")
           ex_cfg_x VNone ex_catalog_twice
           (∅, [(plugin_kind, {[AStr "x"]})])
           ({["first"]}, [(plugin_kind, ∅)]) [] 0 plugin_kind {[AStr "x"]}).
  - vm_compute. reflexivity.
  - reflexivity.
  - right. reflexivity.
Defined.

Lemma scan_removed_name_is_installed_witness :
  ∃ project id entry_name pre n,
    project ∈ ex_catalog_twice ∧ install_name project = Some id ∧
    id ∈ ({["first"]} : gset string, [(plugin_kind, (∅ : gset atom))]).1 ∧
    entry_name ∈ _strings_decl (project_get project (projects_key plugin_kind)) ∧
    AStr "x" = AStr n ∧ entry_name = pre +:+ n.
Proof.
  apply (scan_removed_name_is_installed (λ _, "<object>") (λ _, "<project>")
           ex_cfg_x VNone ex_catalog_twice
           (∅, [(plugin_kind, {[AStr "x"]})])
           ({["first"]}, [(plugin_kind, ∅)]) [] 0 plugin_kind {[AStr "x"]} ∅
           (AStr "x")).
  - vm_compute. reflexivity.
  - reflexivity.
  - reflexivity.
  - by apply elem_of_singleton.
  - apply not_elem_of_empty.
Defined.

Lemma kind_str_suffix_witness :
  kind_str (PluginKind ("markdown" +:+ "_" +:+ "extension") "markdown.extensions")
    = "extension" ∧
  kind_str (PluginKind "extension" "markdown.extensions") = "extension".
Proof. apply (kind_str_suffix "markdown" "extension"). reflexivity. Defined.

Lemma get_deps_result_provenance_witness :
  (has_marker {[ "site_name" := VStr "Test";
                 "plugins" := VList [VStr "tags"];
                 "theme" := VStr "material" ]} ∧
   ("mkdocs-material" = "mkdocs" ∨ "mkdocs-material" = "mkdocs[i18n]")) ∨
  ∃ project, project ∈ ex_catalog ∧
             provides ex_cfg_theme_precedence project "mkdocs-material".
Proof.
  apply (get_deps_result_provenance ex_entry_points (λ _, "<object>")
           (λ _, "<project>") "'mkdocs.yml'" ex_catalog
           {[ "site_name" := VStr "Test";
              "plugins" := VList [VStr "tags"];
              "theme" := VStr "material" ]}
           [] ["mkdocs"; "mkdocs-material"] "mkdocs-material").
  - vm_compute. reflexivity.
  - right. left.
Defined.

Lemma get_deps_no_marker_witness :
  ex_get_deps ex_catalog (VDict {[ "nav" := VList [VStr "index.md"] ]}) =
    MkM [LogRecord WARNING ("The file " +:+ "'mkdocs.yml'" +:+
                              " doesn't seem to be a mkdocs.yml config file")]
        (Ok []).
Proof.
  apply (get_deps_no_marker ex_entry_points (λ _, "<object>")
           (λ _, "<project>") "'mkdocs.yml'" ex_catalog
           {[ "nav" := VList [VStr "index.md"] ]}).
  intros c Hc. apply list_elem_of_In in Hc. simpl in Hc.
  destruct Hc as [<- | [<- | [<- | [<- | []]]]]; reflexivity.
Defined.

Lemma get_deps_only_builtins_witness :
  (locale_selects_i18n
     (VDict {[ "theme" := VStr "readthedocs";
               "plugins" := VList [VStr "search"] ]}) →
   ex_get_deps ex_catalog
     (VDict {[ "theme" := VStr "readthedocs";
               "plugins" := VList [VStr "search"] ]})
   = MkM [] (Ok ["mkdocs[i18n]"])) ∧
  (¬ locale_selects_i18n
       (VDict {[ "theme" := VStr "readthedocs";
                 "plugins" := VList [VStr "search"] ]}) →
   ex_get_deps ex_catalog
     (VDict {[ "theme" := VStr "readthedocs";
               "plugins" := VList [VStr "search"] ]})
   = MkM [] (Ok ["mkdocs"])).
Proof.
  apply (get_deps_only_builtins ex_entry_points (λ _, "<object>")
           (λ _, "<project>") "'mkdocs.yml'" ex_catalog
           {[ "theme" := VStr "readthedocs";
              "plugins" := VList [VStr "search"] ]}).
  - exists "theme". split; [apply list_elem_of_In; simpl; tauto|].
    vm_compute. discriminate.
  - right. exists "readthedocs". split; [vm_compute; reflexivity | tauto].
  - intros a Ha. vm_compute in Ha. discriminate.
  - intros s Hs.
    change (names_in (Some (VList [VStr "search"])) s) in Hs.
    destruct Hs as (item & v' & Hin & Hn).
    apply list_elem_of_singleton in Hin as ->.
    destruct Hn as [[=] | [[= ->] _]]. reflexivity.
  - intros a Ha. vm_compute in Ha. discriminate.
  - intros s Hs. exact Hs.
Defined.

Lemma get_deps_unhashable_theme_witness :
  wanted_sets (VDict {[ "theme" := VList [VStr "material"] ]})
    (config_theme (VDict {[ "theme" := VList [VStr "material"] ]})
       {[ "theme" := VList [VStr "material"] ]}) = Raise TypeError ∧
  ex_get_deps ex_catalog (VDict {[ "theme" := VList [VStr "material"] ]})
    = MkM [] (Raise TypeError).
Proof.
  apply (get_deps_unhashable_theme ex_entry_points (λ _, "<object>")
           (λ _, "<project>") "'mkdocs.yml'" ex_catalog
           {[ "theme" := VList [VStr "material"] ]}).
  left. exists [VStr "material"]. split; [vm_compute; reflexivity | discriminate].
Defined.

Lemma get_deps_error_records_witness :
  ∃ wanted_plugins project kind wanted n,
    wanted_sets ex_cfg_x
      (config_theme ex_cfg_x
         {[ "site_name" := VStr "Test"; "plugins" := VList [VStr "x"] ]})
      = Ok wanted_plugins ∧
    (kind, wanted) ∈ wanted_plugins ∧ AStr n ∈ wanted ∧
    project ∈ ex_catalog_orphan_first ∧ install_name project = None ∧
    message (LogRecord ERROR "Can't find how to install plugin 'x' although it was identified as <project>")
      = install_error (λ _, "<project>") kind n project.
Proof.
  apply (get_deps_error_records ex_entry_points (λ _, "<object>")
           (λ _, "<project>") "'mkdocs.yml'" ex_catalog_orphan_first
           {[ "site_name" := VStr "Test"; "plugins" := VList [VStr "x"] ]}
           [LogRecord ERROR "Can't find how to install plugin 'x' although it was identified as <project>"]
           ["first"; "mkdocs"]).
  - vm_compute. reflexivity.
  - left.
  - reflexivity.
Defined.


Lemma py_sorted_order_independent_witness :
  py_sorted [AStr "b"; AStr "a"] = py_sorted [AStr "a"; AStr "b"] ∧
  ∃ names, py_sorted [AStr "b"; AStr "a"] = Ok names ∧
           names ≡ₚ [AStr "b"; AStr "a"] ∧ Sorted atom_le names.
Proof.
  apply (py_sorted_order_independent [AStr "b"; AStr "a"] [AStr "a"; AStr "b"]).
  - repeat constructor; by eexists.
  - apply perm_swap.
Defined.

Lemma get_deps_catalog_append_witness :
  ∃ lg r,
    ex_get_deps [ex_project None (Some (One "x")) None (Some "first") None ∅]
      ex_cfg_x = MkM lg (Ok r) ∧
    ∀ x, x ∈ r → x ∈ ["first"; "mkdocs"].
Proof.
  apply (get_deps_catalog_append ex_entry_points (λ _, "<object>")
           (λ _, "<project>") "'mkdocs.yml'"
           [ex_project None (Some (One "x")) None (Some "first") None ∅]
           [ex_project None (Some (One "x")) None (Some "second") None ∅]
           {[ "site_name" := VStr "Test"; "plugins" := VList [VStr "x"] ]} []).
  vm_compute. reflexivity.
Defined.

Lemma get_deps_raises_witness :
  (ValueError = ValueError ∧ (∀ d, VList [] ≠ VDict d) ∧
   ex_get_deps ex_catalog (VList []) = MkM [] (Raise ValueError)) ∨
  (ValueError = TypeError ∧ ∃ d, VList [] = VDict d).
Proof.
  apply (get_deps_raises ex_entry_points (λ _, "<object>")
           (λ _, "<project>") "'mkdocs.yml'" ex_catalog (VList []) ValueError).
  reflexivity.
Defined.


Lemma get_deps_installs_wanted_witness :
  ∃ project' id entry_name pre,
    project' ∈ ex_catalog ∧ install_name project' = Some id ∧
    id ∈ ["mkdocs"; "mkdocs-material"] ∧
    entry_name ∈ _strings_decl (project_get project' (projects_key plugin_kind)) ∧
    entry_name = pre +:+ "tags".
Proof.
  apply (get_deps_installs_wanted ex_entry_points (λ _, "<object>")
           (λ _, "<project>") "'mkdocs.yml'" ex_catalog
           {[ "site_name" := VStr "Test";
              "plugins" := VList [VStr "tags"];
              "theme" := VStr "material" ]}
           [] ["mkdocs"; "mkdocs-material"]
           [(theme_kind, {[AStr "material"]}); (plugin_kind, {[AStr "tags"]});
            (extension_kind, ∅)]
           plugin_kind {[AStr "tags"]} "tags"
           (ex_project None (Some (One "tags")) None (Some "mkdocs-plugin-tags")
                       None ∅)).
  - vm_compute. reflexivity.
  - vm_compute. reflexivity.
  - right. left.
  - by apply elem_of_singleton.
  - right. left.
  - discriminate.
  - left.
Defined.
